(** * backend-fast: the transportation endpoint of [main.py]

    A shallow embedding of [transform_data_to_cost_matrix] and
    [solve_transportation], with the properties of the design document
    checked against them.

    Modelling choices.
    - A Python [dict] is an association list in insertion order: assigning to a
      key that is present replaces the value in place, assigning to a new key
      appends it, iteration follows the list.
    - A Python [int] is a [Z]; a Python [float] is an exact rational [Q]
      (rounding is not modelled); a number that may be either is a [PyNum].
    - An exception is a value of [PyExn], threaded through an error monad.
    - PuLP's model is a record ([LpProblem]) holding the objective and the
      named constraints the endpoint adds, as PuLP keeps them: names with
      the characters PuLP replaces, an objective without the terms whose
      coefficient is 0.  Solving is a parameter of [solve_transportation]
      (a [Solver]): a function from the model to the status and the
      variables' values, or to the exception PuLP raises (while registering
      the constraints or while solving).
    - [Customer] is a pydantic model.  What an object inherits from
      [BaseModel], which is not part of the repository, is a parameter too
      ([inherited]): the value [getattr] finds under a name that is not one
      of the declared fields. *)

From Stdlib Require Import List String Ascii ZArith QArith Bool Lia Lqa.
From Stdlib Require Import DecimalString.
Import ListNotations.

Local Open Scope string_scope.

(* ================================================================== *)
(** ** Python dictionaries *)

Section Dict.
Context {V : Type}.

Definition dict := list (string * V).

(** [d.get(k)]: [None] when the key is absent. *)
Fixpoint dict_get (d : dict) (k : string) : option V :=
  match d with
  | [] => None
  | (k', v) :: d' => if String.eqb k' k then Some v else dict_get d' k
  end.

(** [d[k] = v]. *)
Fixpoint dict_set (d : dict) (k : string) (v : V) : dict :=
  match d with
  | [] => [(k, v)]
  | (k', v') :: d' =>
      if String.eqb k' k then (k', v) :: d' else (k', v') :: dict_set d' k v
  end.

Definition dict_keys (d : dict) : list string := map fst d.
Definition dict_values (d : dict) : list V := map snd d.

(** A dict comprehension [{k: v for ...}] over the generated items. *)
Definition dict_of (items : list (string * V)) : dict :=
  fold_left (fun d kv => dict_set d (fst kv) (snd kv)) items [].
End Dict.

Arguments dict V : clear implicits.

(* ================================================================== *)
(** ** Values, exceptions and the error monad *)

(** A Python number: [int] or [float]. *)
Inductive PyNum :=
| PInt (z : Z)
| PFloat (q : Q).

Definition num_Q (n : PyNum) : Q :=
  match n with
  | PInt z => inject_Z z
  | PFloat q => q
  end.

(** [a + b] on numbers: [int + int] is an [int], anything else a [float]. *)
Definition num_add (a b : PyNum) : PyNum :=
  match a, b with
  | PInt x, PInt y => PInt (x + y)
  | _, _ => PFloat (num_Q a + num_Q b)
  end.

(** The values the endpoint meets: [None], a [str], a number (a [bool]
    counts as the [int] it is, 0 or 1), or an object of any other class (a
    dict, a method, ...), of which the class name is kept. *)
Inductive PyVal :=
| VNone
| VStr (s : string)
| VNum (n : PyNum)
| VObj (cls : string).

Inductive PyExn :=
| AttributeError (cls attr : string)
| TypeError (operation : string)
| KeyError (key : string)
| PulpError (msg : string).

Definition result (A : Type) : Type := PyExn + A.

Definition ok {A} (a : A) : result A := inr a.
Definition raise {A} (e : PyExn) : result A := inl e.

Definition bind {A B} (m : result A) (k : A -> result B) : result B :=
  match m with
  | inl e => inl e
  | inr a => k a
  end.

Notation "x <- m ;; k" := (bind m (fun x => k))
  (at level 61, m at next level, right associativity).

(** [for x in xs: s = body(x, s)], stopping at the first exception. *)
Fixpoint for_each {X S} (xs : list X) (body : X -> S -> result S) (s : S)
  : result S :=
  match xs with
  | [] => ok s
  | x :: xs' => s' <- body x s ;; for_each xs' body s'
  end.

(** [d[k]], raising [KeyError] on an absent key. *)
Definition getitem {V} (d : dict V) (k : string) : result V :=
  match dict_get d k with
  | Some v => ok v
  | None => raise (KeyError k)
  end.

(** [str(n)] for an [int]. *)
Definition str_int (z : Z) : string := NilZero.string_of_int (Z.to_int z).

Definition Zsum (l : list Z) : Z := fold_left Z.add l 0%Z.

(* ================================================================== *)
(** ** The request models *)

Record ValidCombination := {
  combination : string;
  description : string;
  vc_capacity : Z;
  vc_cost : Z
}.

Record Customer := {
  client : string;
  Cleveland : Q;
  Harrisburg : Q;
  Chicago : Q;
  Trenton : Q;
  Louisville : Q;
  demand : Z
}.

Record Location := {
  location : string;
  capacity : Z;
  shippingCost : Q;
  generalCost : Z
}.

Record TransportationData := {
  validCombinations : list ValidCombination;
  customers : list Customer;
  locations : list Location
}.

(** Besides the seven fields it declares, a [Customer] object has what
    pydantic's [BaseModel] gives it: class attributes, methods, properties.
    For a name that is not a declared field, a [BaseModel] tells what the
    attribute lookup finds on the object, if anything. *)
Definition BaseModel : Type := Customer -> string -> option PyVal.

Section Program.
Variable inherited : BaseModel.

(** [getattr(customer, name)]: a declared field's value, else what the
    object inherits under the name, else [AttributeError]. *)
Definition getattr (customer : Customer) (name : string) : result PyVal :=
  if name =? "client" then ok (VStr (client customer))
  else if name =? "Cleveland" then ok (VNum (PFloat (Cleveland customer)))
  else if name =? "Harrisburg" then ok (VNum (PFloat (Harrisburg customer)))
  else if name =? "Chicago" then ok (VNum (PFloat (Chicago customer)))
  else if name =? "Trenton" then ok (VNum (PFloat (Trenton customer)))
  else if name =? "Louisville" then ok (VNum (PFloat (Louisville customer)))
  else if name =? "demand" then ok (VNum (PInt (demand customer)))
  else match inherited customer name with
       | Some v => ok v
       | None => raise (AttributeError "Customer" name)
       end.

(** [a + f] for a [float] [f]: a number is added, anything else is a
    [TypeError]. *)
Definition add_float (a : PyVal) (f : Q) : result Q :=
  match a with
  | VNum n => ok (num_Q n + f)%Q
  | _ => raise (TypeError "+")
  end.

(* ================================================================== *)
(** ** The cost matrix *)

Definition fictitious : string := "Cliente fic.".

(** [m[loc][k] = v]. *)
Definition setitem2 (m : dict (dict Q)) (loc k : string) (v : Q)
  : result (dict (dict Q)) :=
  inner <- getitem m loc ;;
  ok (dict_set m loc (dict_set inner k v)).

(** [getattr(customer, loc) + shipping_costs[loc]]. *)
Definition adjusted_cost (shipping_costs : dict Q) (customer : Customer)
  (loc : string) : result Q :=
  a <- getattr customer loc ;;
  s <- getitem shipping_costs loc ;;
  add_float a s.

Definition transform_data_to_cost_matrix (customers : list Customer)
  (locations : list Location) : result (dict (dict Q)) :=
  let shipping_costs :=
    dict_of (map (fun loc => (location loc, shippingCost loc)) locations) in
  let cost_matrix : dict (dict Q) :=
    dict_of (map (fun loc => (location loc, [])) locations) in
  cost_matrix <-
    for_each customers (fun customer cost_matrix =>
      let client_name := client customer in
      for_each (dict_keys cost_matrix) (fun loc cost_matrix =>
        v <- adjusted_cost shipping_costs customer loc ;;
        setitem2 cost_matrix loc client_name v) cost_matrix) cost_matrix ;;
  for_each (dict_keys cost_matrix) (fun loc cost_matrix =>
    setitem2 cost_matrix loc fictitious 0%Q) cost_matrix.

(* ================================================================== *)
(** ** The linear program handed to PuLP *)

(** The characters PuLP does not keep in the name of a variable or of a
    constraint. *)
Definition illegal_chars : list ascii := list_ascii_of_string "-+[] ->/".

(** The name PuLP stores, [str(name).translate(trans)]: every illegal
    character is replaced by an underscore. *)
Fixpoint translate (name : string) : string :=
  match name with
  | EmptyString => EmptyString
  | String ch name' =>
      String (if existsb (Ascii.eqb ch) illegal_chars then "_"%char else ch)
        (translate name')
  end.

(** [LpVariable(f"x_{almacen}_{cliente}", lowBound=0, cat="Continuous")],
    the entry of [variables] under the key [(almacen, cliente)]; [var_name]
    is the name the variable carries. *)
Record LpVariable := {
  var_almacen : string;
  var_cliente : string;
  var_name : string;
  lowBound : Q
}.

(** [variables[almacen, cliente]]: the comprehension builds one variable
    for every pair of keys, so the lookup is a function of the pair. *)
Definition variables (almacen cliente : string) : LpVariable :=
  {| var_almacen := almacen;
     var_cliente := cliente;
     var_name := translate ("x_" ++ almacen ++ "_" ++ cliente);
     lowBound := 0 |}.

Inductive LpSense := LpConstraintLE | LpConstraintEQ.

(** [lpSum(vars) <= rhs] or [lpSum(vars) == rhs], with the name it is
    registered under. *)
Record LpConstraint := {
  con_name : string;
  con_vars : list LpVariable;
  con_sense : LpSense;
  con_rhs : Z
}.

(** [LpProblem("Problema_de_Transporte", LpMinimize)] with the objective's
    terms (variable, coefficient), none of them with the coefficient 0, and
    the constraints in the order they were added. *)
Record LpProblem := {
  lp_name : string;
  objective : list (LpVariable * Q);
  constraints : list LpConstraint
}.

(** PuLP's status codes and the [LpStatus] table. *)
Inductive LpStatusCode :=
| LpStatusNotSolved
| LpStatusOptimal
| LpStatusInfeasible
| LpStatusUnbounded
| LpStatusUndefined.

Definition LpStatus (code : LpStatusCode) : string :=
  match code with
  | LpStatusNotSolved => "Not Solved"
  | LpStatusOptimal => "Optimal"
  | LpStatusInfeasible => "Infeasible"
  | LpStatusUnbounded => "Unbounded"
  | LpStatusUndefined => "Undefined"
  end.

(** What [modelo.solve()] leaves behind: [modelo.status] and every
    variable's [value()] ([None] when the solver assigned none). *)
Record LpSolution := {
  status_code : LpStatusCode;
  varValue : LpVariable -> option Q
}.

(** PuLP, from the model to what it leaves behind or to the exception it
    raises (overlapping names among the constraints once PuLP has replaced
    the characters it does not allow, a solver that cannot run). *)
Definition Solver := LpProblem -> result LpSolution.

(** [variable * number]: the expression with that one term, and the
    expression without terms when the number is 0. *)
Definition lp_mul (v : LpVariable) (x : Q) : list (LpVariable * Q) :=
  if Qeq_bool x 0 then [] else [(v, x)].

(** The value of an expression: [None] as soon as a variable has no value,
    else the constant plus each [value * coefficient] in turn. *)
Fixpoint affine_value (val : LpVariable -> option Q)
  (terms : list (LpVariable * Q)) (s : PyNum) : option PyNum :=
  match terms with
  | [] => Some s
  | (v, x) :: terms' =>
      match val v with
      | None => None
      | Some q => affine_value val terms' (num_add s (PFloat (q * x)))
      end
  end.

(** [modelo.objective.value()] after [modelo.solve()].  For the solve, an
    objective without terms is given PuLP's variable [__dummy]; it stays in
    the objective, with the coefficient 0 and never a value, so the value of
    such an objective is [None]. *)
Definition objective_value (val : LpVariable -> option Q)
  (terms : list (LpVariable * Q)) : option PyNum :=
  match terms with
  | [] => None
  | _ :: _ => affine_value val terms (PInt 0)
  end.

(* ================================================================== *)
(** ** The endpoint *)

Record Response := {
  status : string;
  matrix : list (dict PyVal);
  total_cost : option PyNum
}.

Record HTTPException := {
  status_code_http : Z;
  detail : PyExn
}.

(** [value if value else 0]: [None] and [0.0] both give the [int] 0. *)
Definition value_or_zero (value : option Q) : PyNum :=
  match value with
  | Some q => if Qeq_bool q 0 then PInt 0 else PFloat q
  | None => PInt 0
  end.

(** [demanda] as the comprehension over the customers leaves it. *)
Definition customer_demands (customers : list Customer) : dict Z :=
  dict_of (map (fun customer => (client customer, demand customer)) customers).

(** The demand vector [demanda], the fictitious client included. *)
Definition build_demanda (customers : list Customer) (oferta : dict Z)
  : dict Z :=
  let demanda := customer_demands customers in
  dict_set demanda fictitious
    (Zsum (dict_values oferta) - Zsum (dict_values demanda))%Z.

(** The supply vector [oferta]. *)
Definition build_oferta (locations : list Location) : dict Z :=
  dict_of (map (fun loc => (location loc, capacity loc)) locations).

(** The objective: [lpSum] of [variables[almacen, cliente] *
    costos[almacen][cliente]] for [almacen] in [oferta], for [cliente] in
    [demanda]. *)
Definition build_objective (costos : dict (dict Q)) (oferta demanda : dict Z)
  : result (list (LpVariable * Q)) :=
  for_each
    (flat_map (fun almacen => map (pair almacen) (dict_keys demanda))
       (dict_keys oferta))
    (fun ac terms =>
       row <- getitem costos (fst ac) ;;
       c <- getitem row (snd ac) ;;
       ok (terms ++ lp_mul (variables (fst ac) (snd ac)) c)%list)
    [].

(** [lpSum(...) <= oferta[almacen], f"Oferta_{almacen}"] for [almacen] in
    [oferta]; the loop over the keys with its lookup [oferta[almacen]] is a
    loop over the items. *)
Definition supply_constraints (oferta demanda : dict Z) : list LpConstraint :=
  map (fun ao =>
         {| con_name := translate ("Oferta_" ++ fst ao);
            con_vars := map (variables (fst ao)) (dict_keys demanda);
            con_sense := LpConstraintLE;
            con_rhs := snd ao |}) oferta.

(** [lpSum(...) == demanda[cliente], f"Demanda_{cliente}"] for [cliente]
    in [demanda]. *)
Definition demand_constraints (oferta demanda : dict Z) : list LpConstraint :=
  map (fun cd =>
         {| con_name := translate ("Demanda_" ++ fst cd);
            con_vars := map (fun almacen => variables almacen (fst cd))
                          (dict_keys oferta);
            con_sense := LpConstraintEQ;
            con_rhs := snd cd |}) demanda.

Definition build_model (costos : dict (dict Q)) (oferta demanda : dict Z)
  : result LpProblem :=
  obj <- build_objective costos oferta demanda ;;
  ok {| lp_name := "Problema_de_Transporte";
        objective := obj;
        constraints := (supply_constraints oferta demanda
                        ++ demand_constraints oferta demanda)%list |}.

(** One row of the result matrix: the client, the value shipped from each
    location, and their running total under ["DEMANDA"].  ([total] adds
    [row[almacen]], which is the cell stored just before.) *)
Definition client_row (val : LpVariable -> option Q) (oferta : dict Z)
  (cliente : string) : dict PyVal :=
  let row : dict PyVal := [("CLIENTE", VStr cliente)] in
  let '(row, total) :=
    fold_left (fun '(row, total) almacen =>
                 let value := val (variables almacen cliente) in
                 let cell := value_or_zero value in
                 (dict_set row almacen (VNum cell), num_add total cell))
      (dict_keys oferta) (row, PInt 0) in
  dict_set row "DEMANDA" (VNum total).

(** The trailing row: each location's capacity and the
    ["capacity / demand"] label. *)
Definition capacity_row (oferta demanda : dict Z) : dict PyVal :=
  let capacity_row : dict PyVal := [("CLIENTE", VStr "CAPACIDAD")] in
  let '(capacity_row, total_capacity) :=
    fold_left (fun '(capacity_row, total_capacity) ao =>
                 (dict_set capacity_row (fst ao) (VNum (PInt (snd ao))),
                  (total_capacity + snd ao)%Z))
      oferta (capacity_row, 0%Z) in
  dict_set capacity_row "DEMANDA"
    (VStr (str_int total_capacity ++ " / "
           ++ str_int (Zsum (dict_values demanda)))).

Section Endpoint.
Variable solver : Solver.

(** The body of the [try] block. *)
Definition solve_body (data : TransportationData) : result Response :=
  costos <- transform_data_to_cost_matrix (customers data) (locations data) ;;
  let oferta := build_oferta (locations data) in
  let demanda := build_demanda (customers data) oferta in
  modelo <- build_model costos oferta demanda ;;
  sol <- solver modelo ;;
  let result_matrix :=
    map (client_row (varValue sol) oferta) (dict_keys demanda) in
  let result_matrix :=
    (result_matrix ++ [capacity_row oferta demanda])%list in
  ok {| status := LpStatus (status_code sol);
        matrix := result_matrix;
        total_cost :=
          objective_value (varValue sol) (objective modelo) |}.

(** [except Exception as e: raise HTTPException(500, str(e))]. *)
Definition solve_transportation (data : TransportationData)
  : HTTPException + Response :=
  match solve_body data with
  | inr response => inr response
  | inl e => inl {| status_code_http := 500; detail := e |}
  end.
End Endpoint.

(* ================================================================== *)
(** ** Keys, cells and totals: what the statements are written with *)

Definition mem (k : string) (ks : list string) : bool :=
  existsb (String.eqb k) ks.

(** The keys a comprehension leaves, in order: each key at its first
    occurrence. *)
Definition add_key (ks : list string) (k : string) : list string :=
  if mem k ks then ks else (ks ++ [k])%list.

Definition key_order (ks : list string) : list string :=
  fold_left add_key ks [].

(** [m[loc][k]] when both keys are present. *)
Definition cost_at (m : dict (dict Q)) (loc k : string) : option Q :=
  match dict_get m loc with
  | Some row => dict_get row k
  | None => None
  end.

(** The customer whose costs end up under the name [k]: the last one of the
    request with that name. *)
Fixpoint last_customer (k : string) (cs : list Customer) : option Customer :=
  match cs with
  | [] => None
  | c :: cs' =>
      match last_customer k cs' with
      | Some c' => Some c'
      | None => if client c =? k then Some c else None
      end
  end.

Definition returned {A} (r : result A) : option A :=
  match r with
  | inr a => Some a
  | inl _ => None
  end.

(** The fields of [Customer] that hold a location's base cost. *)
Definition cost_fields : list string :=
  ["Cleveland"; "Harrisburg"; "Chicago"; "Trenton"; "Louisville"].


Definition shipping_costs_of (locations : list Location) : dict Q :=
  dict_of (map (fun loc => (location loc, shippingCost loc)) locations).

Definition Qsum (l : list Q) : Q := fold_right Qplus 0%Q l.

Definition Qor0 (o : option Q) : Q :=
  match o with
  | Some q => q
  | None => 0%Q
  end.

(** The index set of the decision variables, in the order of the loops. *)
Definition variable_keys (oferta demanda : dict Z) : list (string * string) :=
  flat_map (fun almacen => map (pair almacen) (dict_keys demanda))
    (dict_keys oferta).

(* ================================================================== *)
(** ** Feasible points of the model *)

(** The value of [lpSum(vars)]: [None] when a variable has no value. *)
Fixpoint lp_sum (val : LpVariable -> option Q) (vars : list LpVariable)
  : option Q :=
  match vars with
  | [] => Some 0%Q
  | v :: vars' =>
      match val v, lp_sum val vars' with
      | Some q, Some s => Some (q + s)%Q
      | _, _ => None
      end
  end.

Definition constraint_holds (val : LpVariable -> option Q) (c : LpConstraint)
  : Prop :=
  match lp_sum val (con_vars c) with
  | Some s =>
      match con_sense c with
      | LpConstraintLE => (s <= inject_Z (con_rhs c))%Q
      | LpConstraintEQ => (s == inject_Z (con_rhs c))%Q
      end
  | None => False
  end.

Definition within_bounds (val : LpVariable -> option Q) (v : LpVariable)
  : Prop :=
  exists q, val v = Some q /\ (lowBound v <= q)%Q.

(** [val] satisfies every constraint of the model and every variable's
    lower bound. *)
Definition feasible (val : LpVariable -> option Q) (p : LpProblem) : Prop :=
  Forall (fun c => constraint_holds val c
                   /\ Forall (within_bounds val) (con_vars c))
    (constraints p).

(** An exact solver: one that reports the status Optimal only together with
    a point that satisfies the model exactly.  (A solver that computes or
    reports in floating point need not be one.) *)
Definition solver_sound (solver : Solver) : Prop :=
  forall p sol,
    solver p = inr sol -> status_code sol = LpStatusOptimal ->
    feasible (varValue sol) p.

(** Decidable versions, for a solver that checks a candidate point. *)
Definition constraint_holdsb (val : LpVariable -> option Q) (c : LpConstraint)
  : bool :=
  match lp_sum val (con_vars c) with
  | Some s =>
      match con_sense c with
      | LpConstraintLE => Qle_bool s (inject_Z (con_rhs c))
      | LpConstraintEQ => Qeq_bool s (inject_Z (con_rhs c))
      end
  | None => false
  end.

Definition within_boundsb (val : LpVariable -> option Q) (v : LpVariable)
  : bool :=
  match val v with
  | Some q => Qle_bool (lowBound v) q
  | None => false
  end.

Definition feasibleb (val : LpVariable -> option Q) (p : LpProblem) : bool :=
  forallb (fun c => constraint_holdsb val c
                    && forallb (within_boundsb val) (con_vars c))%bool
    (constraints p).

(** A stand-in for the solver: it reports Optimal when the candidate point is
    feasible for the model, and Infeasible (no values) otherwise. *)
Definition candidate_solver (candidate : LpVariable -> option Q) : Solver :=
  fun p =>
    if feasibleb candidate p
    then ok {| status_code := LpStatusOptimal; varValue := candidate |}
    else ok {| status_code := LpStatusInfeasible;
               varValue := fun _ => None |}.

(* ================================================================== *)
(** ** Reading the response *)

(** The number in a row under a key, 0 when there is none. *)
Definition cell_Q (row : dict PyVal) (k : string) : Q :=
  match dict_get row k with
  | Some (VNum n) => num_Q n
  | _ => 0%Q
  end.

(** The client a row is for. *)
Definition row_client (row : dict PyVal) : string :=
  match dict_get row "CLIENTE" with
  | Some (VStr s) => s
  | _ => ""
  end.


(** Two locations that differ at most in [generalCost]. *)
Definition same_but_generalCost (l1 l2 : Location) : Prop :=
  location l1 = location l2 /\ capacity l1 = capacity l2
  /\ shippingCost l1 = shippingCost l2.

(* ================================================================== *)
(** ** Sample requests *)

(** Two locations with capacities 100 and 50, two customers with demands 80
    and 40, unit costs 4 and 6 from the first location, 8 and 5 from the
    second. *)
Definition ana : Customer :=
  {| client := "Ana"; Cleveland := 4; Harrisburg := 8; Chicago := 0;
     Trenton := 0; Louisville := 0; demand := 80 |}.

Definition bob : Customer :=
  {| client := "Bob"; Cleveland := 6; Harrisburg := 5; Chicago := 0;
     Trenton := 0; Louisville := 0; demand := 40 |}.

Definition cleveland : Location :=
  {| location := "Cleveland"; capacity := 100; shippingCost := 0;
     generalCost := 7 |}.

Definition harrisburg : Location :=
  {| location := "Harrisburg"; capacity := 50; shippingCost := 0;
     generalCost := 9 |}.

Definition sample_request : TransportationData :=
  {| validCombinations := [];
     customers := [ana; bob];
     locations := [cleveland; harrisburg] |}.

(** A feasible point of the sample's model: Ana is served from Cleveland,
    Bob from Harrisburg, the rest of each capacity goes to the fictitious
    client. *)
Definition sample_point (v : LpVariable) : option Q :=
  let at_ a c :=
    (String.eqb (var_almacen v) a && String.eqb (var_cliente v) c)%bool in
  if at_ "Cleveland" "Ana" then Some 80%Q
  else if at_ "Cleveland" fictitious then Some 20%Q
  else if at_ "Harrisburg" "Bob" then Some 40%Q
  else if at_ "Harrisburg" fictitious then Some 10%Q
  else Some 0%Q.

(** A customer who carries the fictitious client's name. *)
Definition namesake : Customer :=
  {| client := "Cliente fic."; Cleveland := 5; Harrisburg := 5; Chicago := 5;
     Trenton := 5; Louisville := 5; demand := 10 |}.

Definition depot : Location :=
  {| location := "Cleveland"; capacity := 100; shippingCost := 1;
     generalCost := 0 |}.

(** A location no customer has a field for. *)
Definition boston : Location :=
  {| location := "Boston"; capacity := 100; shippingCost := 1;
     generalCost := 0 |}.

(** A request that asks for more than the locations hold. *)
Definition short_request : TransportationData :=
  {| validCombinations := [];
     customers := [ana; bob];
     locations := [harrisburg] |}.

(* ================================================================== *)
(** ** Further definitions: rows, last occurrences, names, shares *)

(** A request with a location no customer has a field for. *)
Definition boston_request : TransportationData :=
  {| validCombinations := [];
     customers := [ana; bob];
     locations := [cleveland; boston] |}.

(** The keys of the row [m[loc]], when the row is present. *)
Definition row_keys (m : dict (dict Q)) (loc : string) : option (list string) :=
  option_map dict_keys (dict_get m loc).

(** The location whose capacity and shipping cost end up under the name
    [k]: the last one of the request with that name. *)
Fixpoint last_location (k : string) (ls : list Location) : option Location :=
  match ls with
  | [] => None
  | l :: ls' =>
      match last_location k ls' with
      | Some l' => Some l'
      | None => if location l =? k then Some l else None
      end
  end.

(** The value a comprehension over [items] leaves under [k]: that of the last
    item with the key. *)
Fixpoint last_value {V} (k : string) (items : list (string * V)) : option V :=
  match items with
  | [] => None
  | (k', v) :: items' =>
      match last_value k items' with
      | Some v' => Some v'
      | None => if k' =? k then Some v else None
      end
  end.

(** A second customer named Ana, and a second location named Cleveland. *)
Definition ana_revised : Customer :=
  {| client := "Ana"; Cleveland := 7; Harrisburg := 9; Chicago := 0;
     Trenton := 0; Louisville := 0; demand := 30 |}.

Definition cleveland_revised : Location :=
  {| location := "Cleveland"; capacity := 60; shippingCost := 2;
     generalCost := 0 |}.

(** A request without locations. *)
Definition locationless_request : TransportationData :=
  {| validCombinations := []; customers := [ana; bob]; locations := [] |}.

(** A solver that reports a status and leaves the variables without
    values. *)
Definition silent_solver (code : LpStatusCode) : Solver :=
  fun _ => ok {| status_code := code; varValue := fun _ => None |}.


Definition Zor0 (o : option Z) : Z :=
  match o with
  | Some z => z
  | None => 0%Z
  end.

(** The point that ships from every location to every client the share
    capacity * demand / total capacity. *)
Definition proportional_point (oferta demanda : dict Z) (v : LpVariable)
  : option Q :=
  Some (inject_Z (Zor0 (dict_get oferta (var_almacen v)))
        * inject_Z (Zor0 (dict_get demanda (var_cliente v)))
        / inject_Z (Zsum (dict_values oferta)))%Q.

(* ================================================================== *)
(** ** Stand-ins and further sample requests *)

(** A stand-in for [BaseModel] in the evaluations, with a sample of what
    pydantic gives a model object: the class attribute [model_config] (a
    dict), the property [model_extra] ([None] for a model without extra
    fields) and the class flags [__pydantic_complete__] ([True]),
    [__pydantic_custom_init__] and [__pydantic_root_model__] ([False]).
    Under any other name that is not a declared field it has nothing. *)
Definition sample_base : BaseModel :=
  fun _ name =>
    if name =? "model_config" then Some (VObj "dict")
    else if name =? "model_extra" then Some VNone
    else if name =? "__pydantic_complete__" then Some (VNum (PInt 1))
    else if name =? "__pydantic_custom_init__" then Some (VNum (PInt 0))
    else if name =? "__pydantic_root_model__" then Some (VNum (PInt 0))
    else None.


(** [z] to eight significant digits, half up: [unit8] finds the unit of the
    last digit kept. *)
Fixpoint unit8 (fuel : nat) (z unit : Z) : Z :=
  match fuel with
  | O => unit
  | S fuel' =>
      if (z / unit <? 10 ^ 8)%Z then unit else unit8 fuel' z (10 * unit)%Z
  end.

Definition round8 (z : Z) : Z :=
  let unit := unit8 (Z.to_nat (Z.log2 z)) z 1 in
  ((2 * z + unit) / (2 * unit) * unit)%Z.

(** A stand-in for a solver that finds the candidate point, when it is
    feasible, and reports each value with eight significant digits. *)
Definition rounding_solver (candidate : LpVariable -> option Z) : Solver :=
  fun p =>
    if feasibleb (fun v => option_map inject_Z (candidate v)) p
    then ok {| status_code := LpStatusOptimal;
               varValue :=
                 fun v => option_map (fun z => inject_Z (round8 z))
                            (candidate v) |}
    else ok {| status_code := LpStatusInfeasible;
               varValue := fun _ => None |}.

(** A request with a nine-digit demand, and the point that serves it. *)
Definition ana_large : Customer :=
  {| client := "Ana"; Cleveland := 4; Harrisburg := 8; Chicago := 0;
     Trenton := 0; Louisville := 0; demand := 123456789 |}.

Definition cleveland_large : Location :=
  {| location := "Cleveland"; capacity := 200000000; shippingCost := 0;
     generalCost := 0 |}.

Definition large_request : TransportationData :=
  {| validCombinations := [];
     customers := [ana_large];
     locations := [cleveland_large] |}.

Definition large_point (v : LpVariable) : option Z :=
  if var_cliente v =? "Ana" then Some 123456789%Z else Some 76543211%Z.





(* ================================================================== *)
(** ** Facts about dictionaries *)

Lemma mem_In k ks : mem k ks = true <-> In k ks.
Proof.
  unfold mem. rewrite existsb_exists. split.
  - intros (x & Hx & E). apply String.eqb_eq in E. now subst.
  - intros H. exists k. split; [assumption | apply String.eqb_refl].
Qed.

Lemma mem_not_In k ks : mem k ks = false <-> ~ In k ks.
Proof.
  rewrite <- mem_In. destruct (mem k ks); split; congruence.
Qed.

Section DictFacts.
Context {V : Type}.
Implicit Types (d : dict V) (k : string) (v : V).

Lemma dict_get_set_same d k v : dict_get (dict_set d k v) k = Some v.
Proof.
  induction d as [|[k' v'] d IH]; simpl.
  - now rewrite String.eqb_refl.
  - destruct (String.eqb k' k) eqn:E; simpl; rewrite E; auto.
Qed.

Lemma dict_get_set_other d k k' v :
  k <> k' -> dict_get (dict_set d k v) k' = dict_get d k'.
Proof.
  intros Hne. induction d as [|[k0 v0] d IH]; simpl.
  - destruct (String.eqb k k') eqn:E; [apply String.eqb_eq in E; contradiction | reflexivity].
  - destruct (String.eqb k0 k) eqn:E; simpl.
    + apply String.eqb_eq in E. subst k0.
      destruct (String.eqb k k') eqn:E'; [apply String.eqb_eq in E'; contradiction | reflexivity].
    + now rewrite IH.
Qed.

Lemma dict_get_set d k k' v :
  dict_get (dict_set d k v) k' =
  if String.eqb k' k then Some v else dict_get d k'.
Proof.
  destruct (String.eqb k' k) eqn:E.
  - apply String.eqb_eq in E. subst. apply dict_get_set_same.
  - apply dict_get_set_other. intros ->. now rewrite String.eqb_refl in E.
Qed.

Lemma dict_get_In d k : (exists v, dict_get d k = Some v) <-> In k (dict_keys d).
Proof.
  induction d as [|[k' v'] d IH]; simpl.
  - split; [intros (v & H); discriminate | tauto].
  - destruct (String.eqb k' k) eqn:E.
    + apply String.eqb_eq in E. split; eauto.
    + rewrite IH. split; [tauto|]. intros [H|H]; [|assumption].
      subst. now rewrite String.eqb_refl in E.
Qed.

Lemma dict_get_None d k : dict_get d k = None <-> ~ In k (dict_keys d).
Proof.
  rewrite <- dict_get_In. destruct (dict_get d k); split.
  - discriminate.
  - intros H. exfalso. eauto.
  - intros _ (v & H). discriminate.
  - reflexivity.
Qed.

Lemma dict_keys_set d k v :
  dict_keys (dict_set d k v) = add_key (dict_keys d) k.
Proof.
  unfold add_key, mem. induction d as [|[k' v'] d IH]; simpl; [reflexivity|].
  rewrite (String.eqb_sym k k').
  destruct (String.eqb k' k) eqn:E; simpl; [reflexivity|].
  fold (dict_keys d). rewrite IH. unfold dict_keys.
  destruct (existsb (String.eqb k) (map fst d)); reflexivity.
Qed.

Lemma dict_keys_set_present d k v :
  In k (dict_keys d) -> dict_keys (dict_set d k v) = dict_keys d.
Proof.
  intros H. rewrite dict_keys_set. unfold add_key.
  apply mem_In in H. now rewrite H.
Qed.

Lemma dict_keys_set_fresh d k v :
  ~ In k (dict_keys d) ->
  dict_keys (dict_set d k v) = (dict_keys d ++ [k])%list.
Proof.
  intros H. rewrite dict_keys_set. unfold add_key.
  apply mem_not_In in H. now rewrite H.
Qed.

Lemma dict_set_fresh d k v :
  ~ In k (dict_keys d) -> dict_set d k v = (d ++ [(k, v)])%list.
Proof.
  induction d as [|[k' v'] d IH]; simpl; intros H; [reflexivity|].
  destruct (String.eqb k' k) eqn:E.
  - apply String.eqb_eq in E. subst. tauto.
  - f_equal. apply IH. tauto.
Qed.

Lemma dict_keys_fold (items : list (string * V)) d :
  dict_keys (fold_left (fun d kv => dict_set d (fst kv) (snd kv)) items d)
  = fold_left add_key (map fst items) (dict_keys d).
Proof.
  revert d. induction items as [|[k v] items IH]; intros d; simpl; [reflexivity|].
  rewrite IH. now rewrite dict_keys_set.
Qed.

Lemma dict_keys_of (items : list (string * V)) :
  dict_keys (dict_of items) = key_order (map fst items).
Proof. unfold dict_of, key_order. now rewrite dict_keys_fold. Qed.

Lemma dict_of_app (items : list (string * V)) d :
  NoDup (dict_keys d ++ map fst items) ->
  fold_left (fun d kv => dict_set d (fst kv) (snd kv)) items d
  = (d ++ items)%list.
Proof.
  revert d. induction items as [|[k v] items IH]; intros d H; simpl.
  - now rewrite app_nil_r.
  - simpl in H. rewrite dict_set_fresh.
    + rewrite IH.
      * now rewrite <- app_assoc.
      * unfold dict_keys. rewrite map_app. simpl. rewrite <- app_assoc. exact H.
    + apply NoDup_remove_2 in H. intros Hin. apply H.
      apply in_or_app. now left.
Qed.

(** With pairwise distinct keys a comprehension keeps every item. *)
Lemma dict_of_NoDup (items : list (string * V)) :
  NoDup (map fst items) -> dict_of items = items.
Proof. intros H. unfold dict_of. now rewrite dict_of_app. Qed.

Lemma dict_get_NoDup d k v :
  NoDup (dict_keys d) -> In (k, v) d -> dict_get d k = Some v.
Proof.
  induction d as [|[k' v'] d IH]; simpl; intros Hnd Hin; [contradiction|].
  inversion Hnd as [|? ? Hnotin Hnd']; subst.
  destruct Hin as [E|Hin].
  - inversion E; subst. now rewrite String.eqb_refl.
  - destruct (String.eqb k' k) eqn:E.
    + apply String.eqb_eq in E. subst. exfalso. apply Hnotin.
      change k with (fst (k, v)). now apply in_map.
    + now apply IH.
Qed.
End DictFacts.

Lemma add_key_NoDup ks k : NoDup ks -> NoDup (add_key ks k).
Proof.
  intros H. unfold add_key. destruct (mem k ks) eqn:E; [assumption|].
  apply mem_not_In in E. apply NoDup_app; [assumption| |].
  - constructor; [simpl; tauto | constructor].
  - intros x Hx [Hk|[]]. subst. contradiction.
Qed.

Lemma add_key_In ks k x : In x (add_key ks k) <-> In x ks \/ x = k.
Proof.
  unfold add_key. destruct (mem k ks) eqn:E.
  - apply mem_In in E. split; [tauto|]. intros [H|H]; subst; assumption.
  - rewrite in_app_iff. simpl. intuition.
Qed.

Lemma fold_add_key_NoDup ks acc : NoDup acc -> NoDup (fold_left add_key ks acc).
Proof.
  revert acc. induction ks as [|k ks IH]; intros acc H; simpl; [assumption|].
  apply IH. now apply add_key_NoDup.
Qed.

Lemma fold_add_key_In ks acc x :
  In x (fold_left add_key ks acc) <-> In x acc \/ In x ks.
Proof.
  revert acc. induction ks as [|k ks IH]; intros acc; simpl; [tauto|].
  rewrite IH, add_key_In. intuition.
Qed.

Lemma key_order_NoDup ks : NoDup (key_order ks).
Proof. apply fold_add_key_NoDup. constructor. Qed.

Lemma key_order_In ks x : In x (key_order ks) <-> In x ks.
Proof. unfold key_order. rewrite fold_add_key_In. simpl. tauto. Qed.

Lemma fold_add_key_app ks acc :
  NoDup (acc ++ ks) -> fold_left add_key ks acc = (acc ++ ks)%list.
Proof.
  revert acc. induction ks as [|k ks IH]; intros acc H; simpl.
  - now rewrite app_nil_r.
  - unfold add_key at 2.
    assert (Hk : mem k acc = false).
    { apply mem_not_In. apply NoDup_remove_2 in H. intros Hin. apply H.
      apply in_or_app. now left. }
    rewrite Hk. rewrite IH; rewrite <- app_assoc; [reflexivity | exact H].
Qed.

Lemma key_order_NoDup_id ks : NoDup ks -> key_order ks = ks.
Proof. intros H. unfold key_order. now rewrite fold_add_key_app. Qed.

(* ================================================================== *)
(** ** The cost matrix, cell by cell *)

Lemma mem_cons k x ks : mem k (x :: ks) = (String.eqb k x || mem k ks)%bool.
Proof. reflexivity. Qed.

Lemma setitem2_inv m loc k v m' :
  setitem2 m loc k v = inr m' ->
  In loc (dict_keys m) /\
  dict_keys m' = dict_keys m /\
  forall loc' k', cost_at m' loc' k' =
    if (String.eqb loc' loc && String.eqb k' k)%bool then Some v
    else cost_at m loc' k'.
Proof.
  unfold setitem2, getitem, bind.
  destruct (dict_get m loc) as [row|] eqn:Hrow; [|discriminate].
  intros H. inversion H; subst m'; clear H.
  assert (Hin : In loc (dict_keys m)) by (apply dict_get_In; eauto).
  split; [assumption|]. split; [now apply dict_keys_set_present|].
  intros loc' k'. unfold cost_at. rewrite dict_get_set.
  destruct (String.eqb loc' loc) eqn:E; simpl; [|reflexivity].
  apply String.eqb_eq in E. subst loc'. rewrite Hrow.
  apply dict_get_set.
Qed.

Lemma setitem2_ok m loc k v :
  In loc (dict_keys m) -> exists m', setitem2 m loc k v = inr m'.
Proof.
  intros H. apply dict_get_In in H. destruct H as [row Hrow].
  unfold setitem2, getitem, bind. rewrite Hrow. simpl. eauto.
Qed.

Section CostLoops.
Variable shipping_costs : dict Q.

(** The inner loop of the builder, for one customer. *)
Let fill (customer : Customer) :=
  fun (loc : string) (cost_matrix : dict (dict Q)) =>
    v <- adjusted_cost shipping_costs customer loc ;;
    setitem2 cost_matrix loc (client customer) v.

Lemma fill_customer_inv c ks m m' :
  for_each ks (fill c) m = inr m' ->
  dict_keys m' = dict_keys m /\
  (forall loc, In loc ks ->
     exists v, adjusted_cost shipping_costs c loc = inr v) /\
  forall loc k, cost_at m' loc k =
    if (String.eqb k (client c) && mem loc ks)%bool
    then returned (adjusted_cost shipping_costs c loc)
    else cost_at m loc k.
Proof.
  revert m. induction ks as [|l ks IH]; intros m; cbn [for_each].
  - intros H. inversion H; subst. split; [reflexivity|].
    split; [intros ? []|]. intros loc k. now rewrite andb_false_r.
  - unfold fill at 1, bind at 1 2.
    destruct (adjusted_cost shipping_costs c l) as [e|v] eqn:Hv; [discriminate|].
    destruct (setitem2 m l (client c) v) as [e|m1] eqn:Hset; [discriminate|].
    intros H. destruct (IH _ H) as (Hk & Hall & Hcost).
    destruct (setitem2_inv _ _ _ _ _ Hset) as (_ & Hk1 & Hcost1).
    split; [congruence|]. split.
    + intros loc [<-|Hin]; eauto.
    + intros loc k. rewrite Hcost, Hcost1, mem_cons.
      destruct (String.eqb k (client c)) eqn:Ek; simpl;
        [|now rewrite andb_false_r].
      destruct (mem loc ks); [now rewrite orb_true_r|].
      rewrite orb_false_r, andb_true_r.
      destruct (String.eqb loc l) eqn:El; [|reflexivity].
      apply String.eqb_eq in El. subst loc. now rewrite Hv.
Qed.

Lemma fill_customer_ok c ks m :
  (forall loc, In loc ks -> In loc (dict_keys m)) ->
  (forall loc, In loc ks ->
     exists v, adjusted_cost shipping_costs c loc = inr v) ->
  exists m', for_each ks (fill c) m = inr m'.
Proof.
  revert m. induction ks as [|l ks IH]; intros m Hkeys Hall; simpl; [eauto|].
  destruct (Hall l (or_introl eq_refl)) as [v Hv].
  destruct (setitem2_ok m l (client c) v (Hkeys l (or_introl eq_refl)))
    as [m1 Hset].
  unfold fill at 1, bind at 1 2. rewrite Hv, Hset.
  apply IH.
  - intros loc Hin. destruct (setitem2_inv _ _ _ _ _ Hset) as (_ & -> & _).
    apply Hkeys. now right.
  - intros loc Hin. apply Hall. now right.
Qed.

(** When some location of the loop has no cost to add, the loop raises what
    that addition raises (at the first such location). *)
Lemma fill_customer_raises c ks m :
  (forall loc, In loc ks -> In loc (dict_keys m)) ->
  (exists loc, In loc ks /\ returned (adjusted_cost shipping_costs c loc) = None) ->
  exists e loc, In loc ks /\ adjusted_cost shipping_costs c loc = inl e /\
                for_each ks (fill c) m = inl e.
Proof.
  revert m. induction ks as [|l ks IH]; intros m Hkeys (loc & Hin & Hloc).
  - destruct Hin.
  - simpl. unfold fill at 1, bind at 1 2.
    destruct (adjusted_cost shipping_costs c l) as [e|v] eqn:Hv.
    + exists e, l. simpl. auto.
    + destruct (setitem2_ok m l (client c) v (Hkeys l (or_introl eq_refl)))
        as [m1 Hset].
      rewrite Hset.
      destruct (IH m1) as (e & loc' & Hin' & Hadj & Hrun).
      * intros x Hx. destruct (setitem2_inv _ _ _ _ _ Hset) as (_ & -> & _).
        apply Hkeys. now right.
      * destruct Hin as [<-|Hin]; [rewrite Hv in Hloc; discriminate|eauto].
      * exists e, loc'. simpl. auto.
Qed.

Lemma fill_all_inv cs m m' :
  for_each cs (fun customer cost_matrix =>
    for_each (dict_keys cost_matrix) (fill customer) cost_matrix) m = inr m' ->
  dict_keys m' = dict_keys m /\
  (forall c loc, In c cs -> In loc (dict_keys m) ->
     exists v, adjusted_cost shipping_costs c loc = inr v) /\
  forall loc k, cost_at m' loc k =
    match last_customer k cs with
    | Some c =>
        if mem loc (dict_keys m)
        then returned (adjusted_cost shipping_costs c loc)
        else cost_at m loc k
    | None => cost_at m loc k
    end.
Proof.
  revert m. induction cs as [|c cs IH]; intros m; cbn [for_each].
  - intros H. inversion H; subst. split; [reflexivity|].
    split; [intros ? ? []|reflexivity].
  - unfold bind at 1.
    destruct (for_each (dict_keys m) (fill c) m) as [e|m1] eqn:Hc; [discriminate|].
    intros H. destruct (IH _ H) as (Hk & Hall & Hcost).
    destruct (fill_customer_inv _ _ _ _ Hc) as (Hk1 & Hall1 & Hcost1).
    split; [congruence|]. split.
    + intros c' loc [<-|Hin] Hloc; [now apply Hall1|].
      apply Hall; [assumption|]. now rewrite Hk1.
    + intros loc k. rewrite Hcost, Hk1, Hcost1. cbn [last_customer].
      destruct (last_customer k cs) as [c'|].
      * destruct (mem loc (dict_keys m)); [reflexivity|].
        now rewrite andb_false_r.
      * rewrite (String.eqb_sym k (client c)).
        destruct (String.eqb (client c) k); reflexivity.
Qed.

Lemma fill_all_ok cs m :
  (forall c loc, In c cs -> In loc (dict_keys m) ->
     exists v, adjusted_cost shipping_costs c loc = inr v) ->
  exists m', for_each cs (fun customer cost_matrix =>
    for_each (dict_keys cost_matrix) (fill customer) cost_matrix) m = inr m'.
Proof.
  revert m. induction cs as [|c cs IH]; intros m Hall; simpl; [eauto|].
  destruct (fill_customer_ok c (dict_keys m) m) as [m1 Hc].
  - auto.
  - intros loc Hin. apply (Hall c); simpl; auto.
  - unfold bind at 1. rewrite Hc. apply IH.
    destruct (fill_customer_inv _ _ _ _ Hc) as (Hk1 & _).
    intros c' loc Hin Hloc. apply Hall; [now right|]. now rewrite <- Hk1.
Qed.
End CostLoops.

Lemma fill_fictitious_inv ks m m' :
  for_each ks (fun loc cost_matrix =>
    setitem2 cost_matrix loc fictitious 0%Q) m = inr m' ->
  dict_keys m' = dict_keys m /\
  forall loc k, cost_at m' loc k =
    if (String.eqb k fictitious && mem loc ks)%bool then Some 0%Q
    else cost_at m loc k.
Proof.
  revert m. induction ks as [|l ks IH]; intros m; cbn [for_each].
  - intros H. inversion H; subst. split; [reflexivity|].
    intros loc k. now rewrite andb_false_r.
  - unfold bind at 1.
    destruct (setitem2 m l fictitious 0%Q) as [e|m1] eqn:Hset; [discriminate|].
    intros H. destruct (IH _ H) as (Hk & Hcost).
    destruct (setitem2_inv _ _ _ _ _ Hset) as (_ & Hk1 & Hcost1).
    split; [congruence|].
    intros loc k. rewrite Hcost, Hcost1, mem_cons.
    destruct (String.eqb k fictitious); simpl; [|now rewrite andb_false_r].
    destruct (mem loc ks); [now rewrite orb_true_r|].
    rewrite orb_false_r, andb_true_r.
    destruct (String.eqb loc l); reflexivity.
Qed.

Lemma fill_fictitious_ok ks m :
  (forall loc, In loc ks -> In loc (dict_keys m)) ->
  exists m', for_each ks (fun loc cost_matrix =>
    setitem2 cost_matrix loc fictitious 0%Q) m = inr m'.
Proof.
  revert m. induction ks as [|l ks IH]; intros m Hkeys; simpl; [eauto|].
  destruct (setitem2_ok m l fictitious 0%Q (Hkeys l (or_introl eq_refl)))
    as [m1 Hset].
  unfold bind at 1. rewrite Hset. apply IH.
  intros loc Hin. destruct (setitem2_inv _ _ _ _ _ Hset) as (_ & -> & _).
  apply Hkeys. now right.
Qed.

(* ================================================================== *)
(** ** What the builder returns, and when it raises *)

Lemma mem_key_order k ks : mem k (key_order ks) = mem k ks.
Proof.
  destruct (mem k ks) eqn:E.
  - apply mem_In. apply key_order_In. now apply mem_In.
  - apply mem_not_In. rewrite key_order_In. now apply mem_not_In.
Qed.

Lemma dict_fold_const {V} (c : V) (ks : list string) (d : dict V) :
  Forall (fun kv => snd kv = c) d ->
  Forall (fun kv => snd kv = c)
    (fold_left (fun d kv => dict_set d (fst kv) (snd kv))
       (map (fun k => (k, c)) ks) d).
Proof.
  revert d. induction ks as [|k ks IH]; intros d Hd; simpl; [assumption|].
  apply IH. clear IH. induction d as [|[k' v'] d IHd]; simpl.
  - now repeat constructor.
  - inversion Hd; subst. destruct (String.eqb k' k); constructor; auto.
Qed.

Lemma dict_get_Forall {V} (P : string * V -> Prop) (d : dict V) k v :
  Forall P d -> dict_get d k = Some v -> exists k', P (k', v).
Proof.
  induction d as [|[k' v'] d IH]; simpl; intros HP Hget; [discriminate|].
  inversion HP; subst. destruct (String.eqb k' k).
  - inversion Hget; subst. eauto.
  - auto.
Qed.

Lemma cost_at_initial (locations : list Location) loc k :
  cost_at (dict_of (map (fun l => (location l, [])) locations)) loc k = None.
Proof.
  unfold cost_at.
  destruct (dict_get _ loc) as [row|] eqn:Hrow; [|reflexivity].
  assert (H : Forall (fun kv : string * dict Q => snd kv = [])
                (dict_of (map (fun l => (location l, [])) locations))).
  { unfold dict_of.
    replace (map (fun l => (location l, [])) locations)
      with (map (fun k => (k, @nil (string * Q))) (map location locations))
      by (now rewrite map_map).
    apply dict_fold_const. constructor. }
  destruct (dict_get_Forall _ _ _ _ H Hrow) as [k' Hk']. simpl in Hk'.
  now subst row.
Qed.

Lemma transform_inv customers locations cm :
  transform_data_to_cost_matrix customers locations = inr cm ->
  dict_keys cm = key_order (map location locations) /\
  (forall c loc, In c customers -> In loc (map location locations) ->
     exists v, adjusted_cost (shipping_costs_of locations) c loc = inr v) /\
  forall loc k, cost_at cm loc k =
    if mem loc (map location locations) then
      if String.eqb k fictitious then Some 0%Q
      else match last_customer k customers with
           | Some c =>
               returned (adjusted_cost (shipping_costs_of locations) c loc)
           | None => None
           end
    else None.
Proof.
  unfold transform_data_to_cost_matrix. cbv zeta. unfold bind at 1.
  fold (shipping_costs_of locations).
  set (m0 := dict_of (map (fun loc => (location loc, [])) locations)).
  assert (Hk0 : @dict_keys (dict Q) m0 = key_order (map location locations)).
  { unfold m0. rewrite dict_keys_of, map_map. reflexivity. }
  match goal with
  | |- match ?run with _ => _ end = _ -> _ => destruct run as [e|m1] eqn:Hm1
  end; [discriminate|].
  intros Hfic.
  destruct (fill_all_inv _ _ _ _ Hm1) as (Hk1 & Hall & Hcost1).
  destruct (fill_fictitious_inv _ _ _ Hfic) as (Hk2 & Hcost2).
  split; [now rewrite Hk2, Hk1|]. split.
  - intros c loc Hc Hloc. apply Hall; [assumption|].
    rewrite Hk0. now apply key_order_In.
  - intros loc k. rewrite Hcost2, Hcost1, Hk1, Hk0, mem_key_order.
    unfold m0. rewrite cost_at_initial.
    destruct (mem loc (map location locations)).
    + rewrite andb_true_r. destruct (String.eqb k fictitious); [reflexivity|].
      destruct (last_customer k customers); reflexivity.
    + rewrite andb_false_r. destruct (last_customer k customers); reflexivity.
Qed.

Lemma transform_ok customers locations :
  (forall c loc, In c customers -> In loc (map location locations) ->
     exists v, adjusted_cost (shipping_costs_of locations) c loc = inr v) ->
  exists cm, transform_data_to_cost_matrix customers locations = inr cm.
Proof.
  intros Hall. unfold transform_data_to_cost_matrix. cbv zeta.
  fold (shipping_costs_of locations).
  set (m0 := dict_of (map (fun loc => (location loc, [])) locations)).
  assert (Hk0 : @dict_keys (dict Q) m0 = key_order (map location locations)).
  { unfold m0. rewrite dict_keys_of, map_map. reflexivity. }
  destruct (fill_all_ok (shipping_costs_of locations) customers m0) as [m1 Hm1].
  - intros c loc Hc Hloc. apply Hall; [assumption|].
    rewrite Hk0 in Hloc. exact (proj1 (key_order_In _ _) Hloc).
  - cbv zeta in Hm1. unfold bind at 1. rewrite Hm1.
    apply fill_fictitious_ok. auto.
Qed.

Lemma transform_raises c customers locations :
  (exists loc, In loc (map location locations) /\
     returned (adjusted_cost (shipping_costs_of locations) c loc) = None) ->
  exists e loc, In loc (map location locations) /\
    adjusted_cost (shipping_costs_of locations) c loc = inl e /\
    transform_data_to_cost_matrix (c :: customers) locations = inl e.
Proof.
  intros (loc & Hloc & Hnone).
  unfold transform_data_to_cost_matrix. cbv zeta.
  fold (shipping_costs_of locations).
  set (m0 := dict_of (map (fun loc => (location loc, [])) locations)).
  assert (Hk0 : @dict_keys (dict Q) m0 = key_order (map location locations)).
  { unfold m0. rewrite dict_keys_of, map_map. reflexivity. }
  destruct (fill_customer_raises (shipping_costs_of locations) c
              (@dict_keys (dict Q) m0) m0) as (e & loc' & Hin & Hadj & Hrun).
  - auto.
  - exists loc. split; [|assumption]. rewrite Hk0. now apply key_order_In.
  - exists e, loc'. split; [|split; [assumption|]].
    + rewrite Hk0 in Hin. exact (proj1 (key_order_In _ _) Hin).
    + cbv zeta in Hrun. cbn [for_each]. unfold bind at 1 2.
      rewrite Hrun. reflexivity.
Qed.

(** [getattr] on a [Customer]: a float for a cost field, and for a name that
    is not a declared field what the object inherits. *)
Lemma getattr_cost_field c name :
  In name cost_fields -> exists q, getattr c name = inr (VNum (PFloat q)).
Proof.
  intros H. simpl in H.
  repeat (destruct H as [<-|H]; [eexists; reflexivity|]). destruct H.
Qed.




Lemma shipping_cost_present locations loc :
  In loc (map location locations) ->
  exists s, dict_get (shipping_costs_of locations) loc = Some s.
Proof.
  intros H. apply dict_get_In. unfold shipping_costs_of.
  rewrite dict_keys_of, map_map. now apply key_order_In.
Qed.

Lemma shipping_cost_NoDup locations l :
  NoDup (map location locations) -> In l locations ->
  dict_get (shipping_costs_of locations) (location l) = Some (shippingCost l).
Proof.
  intros Hnd Hin. unfold shipping_costs_of.
  rewrite dict_of_NoDup by (now rewrite map_map).
  apply dict_get_NoDup.
  - unfold dict_keys. now rewrite map_map.
  - apply (in_map (fun loc => (location loc, shippingCost loc))) in Hin.
    exact Hin.
Qed.

Lemma last_customer_NoDup c cs :
  NoDup (map client cs) -> In c cs -> last_customer (client c) cs = Some c.
Proof.
  induction cs as [|c' cs IH]; simpl; intros Hnd Hin; [contradiction|].
  inversion Hnd as [|? ? Hnotin Hnd']; subst.
  destruct Hin as [->|Hin].
  - destruct (last_customer (client c) cs) as [c''|] eqn:E.
    + exfalso. apply Hnotin. clear - E.
      induction cs as [|x cs IH]; simpl in E; [discriminate|].
      destruct (last_customer (client c) cs); [right; now apply IH|].
      destruct (String.eqb (client x) (client c)) eqn:Ex; [|discriminate].
      apply String.eqb_eq in Ex. now left.
    + now rewrite String.eqb_refl.
  - now rewrite IH.
Qed.

(* ================================================================== *)
(** ** Totals of the supply and demand vectors *)

Lemma fold_add_shift (l : list Z) (a : Z) :
  fold_left Z.add l a = (a + fold_left Z.add l 0)%Z.
Proof.
  revert a. induction l as [|x l IH]; intros a; simpl; [lia|].
  rewrite (IH (a + x)%Z), (IH x). lia.
Qed.

Lemma Zsum_cons x l : Zsum (x :: l) = (x + Zsum l)%Z.
Proof. unfold Zsum. simpl. apply fold_add_shift. Qed.

Lemma Zsum_app l1 l2 : Zsum (l1 ++ l2) = (Zsum l1 + Zsum l2)%Z.
Proof.
  induction l1 as [|x l1 IH]; simpl; [reflexivity|].
  rewrite !Zsum_cons, IH. lia.
Qed.

(** The total after [d[k] = v]: the value [k] had, if any, is replaced. *)
Lemma Zsum_values_set (d : dict Z) k v :
  Zsum (dict_values (dict_set d k v)) =
  (Zsum (dict_values d)
   - match dict_get d k with Some old => old | None => 0 end + v)%Z.
Proof.
  induction d as [|[k' v'] d IH]; simpl.
  - unfold Zsum. simpl. lia.
  - destruct (String.eqb k' k); simpl.
    + fold (dict_values d). rewrite !Zsum_cons. lia.
    + fold (dict_values d). fold (dict_values (dict_set d k v)).
      rewrite !Zsum_cons, IH. lia.
Qed.

Lemma demanda_total customers oferta :
  Zsum (dict_values (build_demanda customers oferta)) =
  (Zsum (dict_values oferta)
   - match dict_get (customer_demands customers) fictitious with
     | Some submitted => submitted
     | None => 0
     end)%Z.
Proof. unfold build_demanda. cbv zeta. rewrite Zsum_values_set. lia. Qed.

Lemma customer_demands_keys customers :
  dict_keys (customer_demands customers) = key_order (map client customers).
Proof. unfold customer_demands. now rewrite dict_keys_of, map_map. Qed.

Lemma customer_demands_NoDup customers :
  NoDup (map client customers) ->
  customer_demands customers = map (fun c => (client c, demand c)) customers.
Proof.
  intros H. unfold customer_demands. apply dict_of_NoDup. now rewrite map_map.
Qed.

Lemma build_oferta_keys locations :
  dict_keys (build_oferta locations) = key_order (map location locations).
Proof. unfold build_oferta. now rewrite dict_keys_of, map_map. Qed.

Lemma build_oferta_NoDup locations :
  NoDup (map location locations) ->
  build_oferta locations = map (fun l => (location l, capacity l)) locations.
Proof.
  intros H. unfold build_oferta. apply dict_of_NoDup. now rewrite map_map.
Qed.

Lemma demanda_keys_fresh customers oferta :
  ~ In fictitious (map client customers) ->
  dict_keys (build_demanda customers oferta)
  = (key_order (map client customers) ++ [fictitious])%list.
Proof.
  intros H. unfold build_demanda. cbv zeta.
  rewrite dict_keys_set_fresh; rewrite customer_demands_keys;
    [reflexivity | now rewrite key_order_In].
Qed.


Lemma balanced_totals_of_fresh customers locations :
  ~ In fictitious (map client customers) ->
  Zsum (dict_values (build_demanda customers (build_oferta locations)))
  = Zsum (dict_values (build_oferta locations)).
Proof.
  intros H. rewrite demanda_total.
  assert (Hnone : dict_get (customer_demands customers) fictitious = None).
  { apply dict_get_None. now rewrite customer_demands_keys, key_order_In. }
  rewrite Hnone. lia.
Qed.

(* ================================================================== *)
(** ** Checking a candidate point *)

Lemma feasibleb_sound val p : feasibleb val p = true -> feasible val p.
Proof.
  unfold feasibleb, feasible. rewrite forallb_forall, Forall_forall.
  intros H c Hc. specialize (H c Hc). apply andb_prop in H as [H1 H2]. split.
  - unfold constraint_holdsb in H1. unfold constraint_holds.
    destruct (lp_sum val (con_vars c)); [|discriminate].
    destruct (con_sense c).
    + now apply Qle_bool_iff.
    + now apply Qeq_bool_iff.
  - rewrite forallb_forall in H2. apply Forall_forall. intros v Hv.
    specialize (H2 v Hv). unfold within_boundsb in H2. unfold within_bounds.
    destruct (val v) as [q|]; [|discriminate].
    exists q. split; [reflexivity|]. now apply Qle_bool_iff.
Qed.

Lemma candidate_solver_sound candidate : solver_sound (candidate_solver candidate).
Proof.
  intros p sol. unfold candidate_solver.
  destruct (feasibleb candidate p) eqn:E; intros H; inversion H; subst; simpl.
  - intros _. now apply feasibleb_sound.
  - discriminate.
Qed.

(* ================================================================== *)
(** ** Rows of the result matrix *)

Lemma num_Q_add a b : (num_Q (num_add a b) == num_Q a + num_Q b)%Q.
Proof.
  destruct a, b; cbn [num_add num_Q]; try reflexivity.
  now rewrite inject_Z_plus.
Qed.

Lemma num_Q_value_or_zero o : (num_Q (value_or_zero o) == Qor0 o)%Q.
Proof.
  destruct o as [q|]; simpl; [|reflexivity].
  destruct (Qeq_bool q 0) eqn:E; simpl; [|reflexivity].
  apply Qeq_bool_eq in E. now rewrite E.
Qed.


Lemma Qsum_map_ext {A} (f g : A -> Q) l :
  (forall x, In x l -> (f x == g x)%Q) ->
  (Qsum (map f l) == Qsum (map g l))%Q.
Proof.
  induction l as [|x l IH]; simpl; intros H; [reflexivity|].
  rewrite (H x (or_introl eq_refl)), IH; [reflexivity|]. auto.
Qed.




Lemma Qsum_nonneg l : Forall (fun q => (0 <= q)%Q) l -> (0 <= Qsum l)%Q.
Proof.
  induction 1 as [|q l Hq _ IH]; simpl; [apply Qle_refl|].
  change 0%Q with (0 + 0)%Q. now apply Qplus_le_compat.
Qed.

Lemma lp_sum_Qsum val vars s :
  lp_sum val vars = Some s ->
  (s == Qsum (map (fun v => Qor0 (val v)) vars))%Q /\
  Forall (fun v => exists q, val v = Some q) vars.
Proof.
  revert s. induction vars as [|v vars IH]; simpl; intros s H.
  - inversion H; subst. split; [reflexivity|constructor].
  - destruct (val v) as [q|] eqn:Hv; [|discriminate].
    destruct (lp_sum val vars) as [s'|]; [|discriminate].
    inversion H; subst. destruct (IH s' eq_refl) as [Hs Hall]. split.
    + simpl. now rewrite Hs.
    + constructor; eauto.
Qed.

Lemma client_row_fold (val : LpVariable -> option Q) cliente ks
  (row : dict PyVal) total row' total' :
  fold_left (fun '(row, total) almacen =>
               let value := val (variables almacen cliente) in
               let cell := value_or_zero value in
               (dict_set row almacen (VNum cell), num_add total cell))
    ks (row, total) = (row', total') ->
  (forall k, dict_get row' k =
     if mem k ks
     then Some (VNum (value_or_zero (val (variables k cliente))))
     else dict_get row k) /\
  (num_Q total' ==
   num_Q total + Qsum (map (fun a => Qor0 (val (variables a cliente))) ks))%Q.
Proof.
  revert row total. induction ks as [|l ks IH]; intros row total; simpl.
  - intros H. inversion H; subst. split; [reflexivity|ring].
  - intros H. apply IH in H. destruct H as [Hget Htot]. split.
    + intros k. rewrite Hget, dict_get_set. fold (mem k ks).
      destruct (mem k ks); [now rewrite orb_true_r|]. rewrite orb_false_r.
      destruct (String.eqb k l) eqn:E; [|reflexivity].
      apply String.eqb_eq in E. now subst.
    + rewrite Htot, num_Q_add, num_Q_value_or_zero. ring.
Qed.

Lemma client_row_get val oferta cliente k :
  dict_get (client_row val oferta cliente) k =
  if String.eqb k "DEMANDA" then
    match dict_get (client_row val oferta cliente) "DEMANDA" with
    | Some total => Some total
    | None => None
    end
  else if mem k (dict_keys oferta)
       then Some (VNum (value_or_zero (val (variables k cliente))))
       else if String.eqb "CLIENTE" k then Some (VStr cliente) else None.
Proof.
  destruct (String.eqb k "DEMANDA") eqn:E.
  - apply String.eqb_eq in E. subst k.
    now destruct (dict_get (client_row val oferta cliente) "DEMANDA").
  - unfold client_row.
    match goal with
    | |- context [fold_left ?f ?l ?a] =>
        destruct (fold_left f l a) as [row total] eqn:Hfold
    end.
    apply client_row_fold in Hfold. destruct Hfold as [Hget _].
    rewrite dict_get_set, E, Hget. reflexivity.
Qed.

Lemma client_row_cell val oferta cliente almacen :
  In almacen (dict_keys oferta) -> almacen <> "DEMANDA" ->
  (cell_Q (client_row val oferta cliente) almacen
   == Qor0 (val (variables almacen cliente)))%Q.
Proof.
  intros Hin Hne. unfold cell_Q. rewrite client_row_get.
  destruct (String.eqb almacen "DEMANDA") eqn:E;
    [apply String.eqb_eq in E; contradiction|].
  apply mem_In in Hin. rewrite Hin. apply num_Q_value_or_zero.
Qed.

Lemma client_row_total val oferta cliente :
  exists total,
    dict_get (client_row val oferta cliente) "DEMANDA" = Some (VNum total) /\
    (num_Q total
     == Qsum (map (fun a => Qor0 (val (variables a cliente)))
                (dict_keys oferta)))%Q.
Proof.
  unfold client_row.
  match goal with
  | |- context [fold_left ?f ?l ?a] =>
      destruct (fold_left f l a) as [row total] eqn:Hfold
  end.
  apply client_row_fold in Hfold. destruct Hfold as [_ Htot].
  exists total. split; [apply dict_get_set_same|].
  rewrite Htot. simpl. ring.
Qed.

Lemma client_row_client val oferta cliente :
  ~ In "CLIENTE" (dict_keys oferta) ->
  dict_get (client_row val oferta cliente) "CLIENTE" = Some (VStr cliente).
Proof.
  intros H. rewrite client_row_get. simpl.
  apply mem_not_In in H. now rewrite H.
Qed.

Lemma capacity_row_fold (oferta : dict Z) (row : dict PyVal) total row' total' :
  fold_left (fun '(capacity_row, total_capacity) ao =>
               (dict_set capacity_row (fst ao) (VNum (PInt (snd ao))),
                (total_capacity + snd ao)%Z))
    oferta (row, total) = (row', total') ->
  total' = (total + Zsum (dict_values oferta))%Z /\
  forall k, ~ In k (dict_keys oferta) -> dict_get row' k = dict_get row k.
Proof.
  revert row total. induction oferta as [|[a cap] oferta IH];
    intros row total; simpl.
  - intros H. inversion H; subst. unfold Zsum. simpl. split; [lia|auto].
  - intros H. apply IH in H. destruct H as [Htot Hget]. split.
    + fold (dict_values oferta). rewrite Zsum_cons. lia.
    + intros k Hk. rewrite Hget by tauto. apply dict_get_set_other.
      intros ->. tauto.
Qed.

Lemma capacity_row_label oferta demanda :
  dict_get (capacity_row oferta demanda) "DEMANDA" =
  Some (VStr (str_int (Zsum (dict_values oferta)) ++ " / "
              ++ str_int (Zsum (dict_values demanda)))).
Proof.
  unfold capacity_row.
  match goal with
  | |- context [fold_left ?f ?l ?a] =>
      destruct (fold_left f l a) as [row total] eqn:Hfold
  end.
  apply capacity_row_fold in Hfold. destruct Hfold as [-> _].
  rewrite dict_get_set_same. reflexivity.
Qed.

Lemma capacity_row_client oferta demanda :
  ~ In "CLIENTE" (dict_keys oferta) ->
  dict_get (capacity_row oferta demanda) "CLIENTE" = Some (VStr "CAPACIDAD").
Proof.
  intros H. unfold capacity_row.
  match goal with
  | |- context [fold_left ?f ?l ?a] =>
      destruct (fold_left f l a) as [row total] eqn:Hfold
  end.
  apply capacity_row_fold in Hfold. destruct Hfold as [_ Hget].
  rewrite dict_get_set_other by discriminate.
  rewrite Hget by assumption. reflexivity.
Qed.

(* ================================================================== *)
(** ** The model and the endpoint, step by step *)

Lemma objective_loop_inv (costos : dict (dict Q)) pairs acc terms :
  for_each pairs
    (fun ac terms =>
       row <- getitem costos (fst ac) ;;
       c <- getitem row (snd ac) ;;
       ok (terms ++ lp_mul (variables (fst ac) (snd ac)) c)%list) acc
  = inr terms ->
  terms = (acc ++ flat_map (fun ac =>
                              lp_mul (variables (fst ac) (snd ac))
                                (Qor0 (cost_at costos (fst ac) (snd ac))))
                    pairs)%list.
Proof.
  revert acc. induction pairs as [|[a c] pairs IH]; intros acc; cbn [for_each].
  - intros H. inversion H. now rewrite app_nil_r.
  - cbv [bind getitem raise ok]. cbn [fst snd].
    destruct (dict_get costos a) as [row|] eqn:Hrow; [|discriminate].
    destruct (dict_get row c) as [v|] eqn:Hv; [|discriminate].
    intros H. apply IH in H.
    rewrite H, <- app_assoc. cbn [flat_map fst snd].
    unfold cost_at. now rewrite Hrow, Hv.
Qed.

Lemma objective_loop_ok (costos : dict (dict Q)) pairs acc :
  (forall ac, In ac pairs ->
     exists v, cost_at costos (fst ac) (snd ac) = Some v) ->
  exists terms,
    for_each pairs
      (fun ac terms =>
         row <- getitem costos (fst ac) ;;
         c <- getitem row (snd ac) ;;
         ok (terms ++ lp_mul (variables (fst ac) (snd ac)) c)%list) acc
    = inr terms.
Proof.
  revert acc. induction pairs as [|[a c] pairs IH]; intros acc Hall;
    cbn [for_each]; [eexists; reflexivity|].
  destruct (Hall (a, c) (or_introl eq_refl)) as [v Hv]. unfold cost_at in Hv.
  cbn [fst snd] in Hv.
  cbv [bind getitem raise ok]. cbn [fst snd].
  destruct (dict_get costos a) as [row|]; [|discriminate].
  rewrite Hv. apply IH. intros ac Hin. apply Hall. now right.
Qed.

Lemma build_model_inv costos oferta demanda modelo :
  build_model costos oferta demanda = inr modelo ->
  objective modelo =
    flat_map (fun ac => lp_mul (variables (fst ac) (snd ac))
                          (Qor0 (cost_at costos (fst ac) (snd ac))))
      (variable_keys oferta demanda) /\
  constraints modelo =
    (supply_constraints oferta demanda ++ demand_constraints oferta demanda)%list.
Proof.
  unfold build_model, build_objective, bind at 1.
  match goal with
  | |- match ?run with _ => _ end = _ -> _ => destruct run as [e|obj] eqn:Hobj
  end; [discriminate|].
  intros H. inversion H; subst; clear H. cbn [objective constraints].
  apply objective_loop_inv in Hobj. now split.
Qed.

Lemma build_model_ok costos oferta demanda :
  (forall a c, In a (dict_keys oferta) -> In c (dict_keys demanda) ->
     exists v, cost_at costos a c = Some v) ->
  exists modelo, build_model costos oferta demanda = inr modelo.
Proof.
  intros Hall. unfold build_model, build_objective.
  destruct (objective_loop_ok costos
              (flat_map (fun almacen => map (pair almacen) (dict_keys demanda))
                 (dict_keys oferta)) []) as [terms Hterms].
  - intros [a c] Hin. apply in_flat_map in Hin.
    destruct Hin as (a' & Ha' & Hin). apply in_map_iff in Hin.
    destruct Hin as (c' & E & Hc'). inversion E; subst. now apply Hall.
  - unfold bind at 1. rewrite Hterms. eexists. reflexivity.
Qed.

Lemma last_customer_In k cs :
  In k (map client cs) ->
  exists c, last_customer k cs = Some c /\ In c cs /\ client c = k.
Proof.
  induction cs as [|c cs IH]; simpl; [tauto|].
  intros H. destruct (last_customer k cs) as [c'|] eqn:E.
  - assert (Hin : In k (map client cs)).
    { clear - E. induction cs as [|x cs IH]; simpl in E; [discriminate|].
      destruct (last_customer k cs); [right; now apply IH|].
      destruct (String.eqb (client x) k) eqn:Ex; [|discriminate].
      apply String.eqb_eq in Ex. now left. }
    destruct (IH Hin) as (c0 & Hc0 & Hin0 & Hk). inversion Hc0; subst.
    exists c0. auto.
  - destruct H as [H|H].
    + subst k. rewrite String.eqb_refl. exists c. auto.
    + destruct (IH H) as (c0 & Hc0 & _). discriminate.
Qed.

Lemma demanda_keys_In customers oferta c :
  In c (dict_keys (build_demanda customers oferta)) <->
  In c (map client customers) \/ c = fictitious.
Proof.
  unfold build_demanda. cbv zeta.
  now rewrite dict_keys_set, add_key_In, customer_demands_keys, key_order_In.
Qed.

(** Every cell the objective reads is present in the matrix the builder
    returned: building the model raises no [KeyError]. *)
Lemma costs_present customers locations costos a c :
  transform_data_to_cost_matrix customers locations = inr costos ->
  In a (dict_keys (build_oferta locations)) ->
  In c (dict_keys (build_demanda customers (build_oferta locations))) ->
  exists v, cost_at costos a c = Some v.
Proof.
  intros Ht Ha Hc. destruct (transform_inv _ _ _ Ht) as (_ & Hall & Hcost).
  rewrite build_oferta_keys, key_order_In in Ha.
  rewrite Hcost. rewrite (proj2 (mem_In _ _) Ha).
  destruct (String.eqb c fictitious) eqn:E; [eauto|].
  apply demanda_keys_In in Hc. destruct Hc as [Hc|Hc];
    [|subst; now rewrite String.eqb_refl in E].
  destruct (last_customer_In _ _ Hc) as (c0 & -> & Hin & _).
  destruct (Hall c0 a Hin Ha) as [v ->]. simpl. eauto.
Qed.

Section EndpointFacts.
Variable solver : Solver.

Lemma solve_inv data r :
  solve_transportation solver data = inr r ->
  exists costos modelo sol,
    transform_data_to_cost_matrix (customers data) (locations data)
      = inr costos /\
    build_model costos (build_oferta (locations data))
      (build_demanda (customers data) (build_oferta (locations data)))
      = inr modelo /\
    solver modelo = inr sol /\
    status r = LpStatus (status_code sol) /\
    matrix r =
      (map (client_row (varValue sol) (build_oferta (locations data)))
         (dict_keys (build_demanda (customers data)
                       (build_oferta (locations data))))
       ++ [capacity_row (build_oferta (locations data))
             (build_demanda (customers data)
                (build_oferta (locations data)))])%list /\
    total_cost r = objective_value (varValue sol) (objective modelo).
Proof.
  unfold solve_transportation, solve_body. cbv zeta. unfold bind.
  destruct (transform_data_to_cost_matrix _ _) as [e|costos] eqn:Ht;
    [discriminate|].
  destruct (build_model _ _ _) as [e|modelo] eqn:Hm; [discriminate|].
  destruct (solver modelo) as [e|sol] eqn:Hsol; [discriminate|].
  intros H. inversion H; subst; clear H. cbn [status matrix total_cost].
  exists costos, modelo, sol. repeat split; assumption || reflexivity.
Qed.

(** The endpoint returns a response as soon as the builder and the solver
    return: nothing else in the body raises. *)
Lemma solve_ok data costos :
  transform_data_to_cost_matrix (customers data) (locations data)
    = inr costos ->
  exists modelo,
    build_model costos (build_oferta (locations data))
      (build_demanda (customers data) (build_oferta (locations data)))
      = inr modelo /\
    forall sol, solver modelo = inr sol ->
      exists r, solve_transportation solver data = inr r.
Proof.
  intros Ht.
  destruct (build_model_ok costos (build_oferta (locations data))
              (build_demanda (customers data) (build_oferta (locations data))))
    as [modelo Hm].
  - intros a c Ha Hc. eapply costs_present; eauto.
  - exists modelo. split; [assumption|]. intros sol Hsol.
    unfold solve_transportation, solve_body. cbv zeta. unfold bind.
    rewrite Ht, Hm, Hsol. eexists. reflexivity.
Qed.
End EndpointFacts.

Lemma LpStatus_Optimal code : LpStatus code = "Optimal" -> code = LpStatusOptimal.
Proof. destruct code; simpl; intros H; (reflexivity || discriminate). Qed.

(* ================================================================== *)
(** ** The allocation and its cost *)

Lemma Forall2_map_eq {A B} (R : A -> A -> Prop) (f : A -> B) l1 l2 :
  (forall x y, R x y -> f x = f y) -> Forall2 R l1 l2 -> map f l1 = map f l2.
Proof.
  intros Hf. induction 1 as [|x y l1 l2 Hxy _ IH]; simpl; [reflexivity|].
  now rewrite (Hf x y Hxy), IH.
Qed.

Lemma dict_get_Some_In {V} (d : dict V) k v :
  dict_get d k = Some v -> In (k, v) d.
Proof.
  induction d as [|[k' v'] d IH]; simpl; [discriminate|].
  destruct (String.eqb k' k) eqn:E.
  - apply String.eqb_eq in E. intros H. inversion H; subst. now left.
  - intros H. right. now apply IH.
Qed.

Lemma In_dict_keys {V} (d : dict V) k v : In (k, v) d -> In k (dict_keys d).
Proof. intros H. change k with (fst (k, v)). now apply in_map. Qed.

Lemma Forall2_map_fst {A B C} (P : C -> A * B -> Prop) (g : A -> C)
  (d : list (A * B)) :
  (forall ab, In ab d -> P (g (fst ab)) ab) ->
  Forall2 P (map g (map fst d)) d.
Proof.
  induction d as [|ab d IH]; simpl; intros H; constructor; auto.
Qed.

Lemma Forall2_left {A B} (P : A -> B -> Prop) (R : A -> Prop) l l' :
  (forall x y, P x y -> R x) -> Forall2 P l l' -> Forall R l.
Proof. intros H. induction 1; constructor; eauto. Qed.




Lemma lp_sum_nonneg val vars s :
  lp_sum val vars = Some s ->
  Forall (within_bounds val) vars ->
  Forall (fun v => lowBound v = 0%Q) vars ->
  (0 <= s)%Q.
Proof.
  revert s. induction vars as [|v vars IH]; simpl; intros s Hs Hb Hl.
  - inversion Hs; subst. apply Qle_refl.
  - destruct (val v) as [q|] eqn:Hv; [|discriminate].
    destruct (lp_sum val vars) as [s'|]; [|discriminate].
    inversion Hs; subst. inversion Hb as [|? ? (q' & Hq' & Hle) Hb']; subst.
    inversion Hl as [|? ? Hl0 Hl']; subst.
    rewrite Hv in Hq'. inversion Hq'; subst q'. rewrite Hl0 in Hle.
    specialize (IH s' eq_refl Hb' Hl'). lra.
Qed.

Section ModelFacts.
Variables (costos : dict (dict Q)) (oferta demanda : dict Z).
Variable modelo : LpProblem.
Hypothesis Hmodelo : build_model costos oferta demanda = inr modelo.
Variable val : LpVariable -> option Q.
Hypothesis Hfeasible : feasible val modelo.

Lemma supply_constraint_holds almacen cap :
  In (almacen, cap) oferta ->
  exists s,
    lp_sum val (map (variables almacen) (dict_keys demanda)) = Some s /\
    (s <= inject_Z cap)%Q /\
    Forall (within_bounds val) (map (variables almacen) (dict_keys demanda)).
Proof.
  intros Hin. destruct (build_model_inv _ _ _ _ Hmodelo) as [_ Hcons].
  unfold feasible in Hfeasible. rewrite Hcons, Forall_app in Hfeasible.
  destruct Hfeasible as [Hs _]. rewrite Forall_forall in Hs.
  specialize (Hs _ (in_map _ _ _ Hin)). cbn [fst snd] in Hs.
  destruct Hs as [Hc Hb]. unfold constraint_holds in Hc.
  cbn [con_vars con_sense con_rhs] in Hc, Hb.
  destruct (lp_sum val _) as [s|]; [|contradiction]. eauto.
Qed.

Lemma demand_constraint_holds cliente d :
  In (cliente, d) demanda ->
  exists s,
    lp_sum val (map (fun almacen => variables almacen cliente)
                  (dict_keys oferta)) = Some s /\
    (s == inject_Z d)%Q /\
    Forall (within_bounds val)
      (map (fun almacen => variables almacen cliente) (dict_keys oferta)).
Proof.
  intros Hin. destruct (build_model_inv _ _ _ _ Hmodelo) as [_ Hcons].
  unfold feasible in Hfeasible. rewrite Hcons, Forall_app in Hfeasible.
  destruct Hfeasible as [_ Hd]. rewrite Forall_forall in Hd.
  specialize (Hd _ (in_map _ _ _ Hin)). cbn [fst snd] in Hd.
  destruct Hd as [Hc Hb]. unfold constraint_holds in Hc.
  cbn [con_vars con_sense con_rhs] in Hc, Hb.
  destruct (lp_sum val _) as [s|]; [|contradiction]. eauto.
Qed.
End ModelFacts.

(** The quantities a location ships, summed over the clients' rows. *)
Lemma column_sum val oferta (clientes : list string) almacen :
  In almacen (dict_keys oferta) -> almacen <> "DEMANDA" ->
  (Qsum (map (fun row => cell_Q row almacen)
           (map (client_row val oferta) clientes))
   == Qsum (map (fun v => Qor0 (val v)) (map (variables almacen) clientes)))%Q.
Proof.
  intros Hin Hne. rewrite !map_map. apply Qsum_map_ext.
  intros c _. now apply client_row_cell.
Qed.

(** The quantities a client receives, summed over the locations. *)
Lemma row_sum val oferta cliente :
  ~ In "DEMANDA" (dict_keys oferta) ->
  (Qsum (map (cell_Q (client_row val oferta cliente)) (dict_keys oferta))
   == Qsum (map (fun v => Qor0 (val v))
              (map (fun almacen => variables almacen cliente)
                 (dict_keys oferta))))%Q.
Proof.
  intros Hne. rewrite map_map. apply Qsum_map_ext.
  intros a Ha. apply client_row_cell; [assumption|].
  intros ->. contradiction.
Qed.

Lemma row_total val oferta cliente :
  (cell_Q (client_row val oferta cliente) "DEMANDA"
   == Qsum (map (fun v => Qor0 (val v))
              (map (fun almacen => variables almacen cliente)
                 (dict_keys oferta))))%Q.
Proof.
  destruct (client_row_total val oferta cliente) as (total & Hget & Htot).
  unfold cell_Q. rewrite Hget, Htot, map_map. reflexivity.
Qed.

(* ================================================================== *)
(** ** The objective and its value *)






(* ================================================================== *)
(** ** The request's totals, and the rows of a feasible point *)

Lemma request_totals customers locations :
  NoDup (map client customers) -> NoDup (map location locations) ->
  Zsum (dict_values (customer_demands customers)) = Zsum (map demand customers)
  /\ Zsum (dict_values (build_oferta locations))
     = Zsum (map capacity locations).
Proof.
  intros Hcs Hls.
  rewrite (customer_demands_NoDup _ Hcs), (build_oferta_NoDup _ Hls).
  unfold dict_values. now rewrite !map_map.
Qed.

Lemma client_row_cell_value val oferta cliente almacen :
  In almacen (dict_keys oferta) -> almacen <> "DEMANDA" ->
  dict_get (client_row val oferta cliente) almacen
  = Some (VNum (value_or_zero (val (variables almacen cliente)))).
Proof.
  intros Hin Hne. rewrite client_row_get.
  destruct (String.eqb almacen "DEMANDA") eqn:E;
    [apply String.eqb_eq in E; contradiction|].
  now rewrite (proj2 (mem_In _ _) Hin).
Qed.

Section FeasibleRows.
Variables (costos : dict (dict Q)) (oferta demanda : dict Z).
Variable modelo : LpProblem.
Hypothesis Hmodelo : build_model costos oferta demanda = inr modelo.
Variable val : LpVariable -> option Q.
Hypothesis Hfeasible : feasible val modelo.
Hypothesis Hdemanda : ~ In "DEMANDA" (dict_keys oferta).

Lemma feasible_columns almacen cap :
  In (almacen, cap) oferta ->
  (Qsum (map (fun row => cell_Q row almacen)
           (map (client_row val oferta) (dict_keys demanda)))
   <= inject_Z cap)%Q.
Proof.
  intros Hin.
  destruct (supply_constraint_holds _ _ _ _ Hmodelo _ Hfeasible almacen cap Hin)
    as (s & Hs & Hle & _).
  apply lp_sum_Qsum in Hs. destruct Hs as [Hs _].
  rewrite column_sum.
  - now rewrite <- Hs.
  - eapply In_dict_keys; eauto.
  - intros ->. apply Hdemanda. eapply In_dict_keys; eauto.
Qed.

Lemma feasible_rows :
  Forall2 (fun row cd =>
             (Qsum (map (cell_Q row) (dict_keys oferta))
              == inject_Z (snd cd))%Q /\
             (cell_Q row "DEMANDA" == inject_Z (snd cd))%Q)
    (map (client_row val oferta) (dict_keys demanda)) demanda.
Proof.
  unfold dict_keys at 1. apply Forall2_map_fst. intros [c d] Hin. cbn [fst snd].
  destruct (demand_constraint_holds _ _ _ _ Hmodelo _ Hfeasible c d Hin)
    as (s & Hs & Heq & _).
  apply lp_sum_Qsum in Hs. destruct Hs as [Hs _].
  rewrite row_sum by assumption. rewrite row_total.
  rewrite <- Hs. now split.
Qed.
End FeasibleRows.

(* ================================================================== *)
(** ** The properties of the design document *)

(** C1 (amended).  For pairwise distinct customer identifiers and pairwise
    distinct location identifiers: when the customers ask in total for more
    than the locations hold, the endpoint does not fail on that account.
    The fictitious client gets the negative difference (total capacity minus
    total demand) as demand; for the cost matrix the builder returns, the
    model is built, it has no feasible point, and whenever the solver
    returns, the endpoint returns a response carrying the solver's status,
    with a row per entry of the demand vector and the capacity row; that
    status is not Optimal for a solver that reports Optimal only for a
    feasible point. *)
Theorem excess_demand_is_solved (solver : Solver) data :
  NoDup (map client (customers data)) ->
  NoDup (map location (locations data)) ->
  (Zsum (map demand (customers data))
   > Zsum (map capacity (locations data)))%Z ->
  (exists d,
     dict_get (build_demanda (customers data) (build_oferta (locations data)))
       fictitious = Some d /\
     d = (Zsum (map capacity (locations data))
          - Zsum (map demand (customers data)))%Z /\
     (d < 0)%Z) /\
  (forall costos,
     transform_data_to_cost_matrix (customers data) (locations data)
     = inr costos ->
     exists modelo,
       build_model costos (build_oferta (locations data))
         (build_demanda (customers data) (build_oferta (locations data)))
       = inr modelo /\
       (forall val, ~ feasible val modelo) /\
       (forall sol, solver modelo = inr sol ->
          exists r,
            solve_transportation solver data = inr r /\
            status r = LpStatus (status_code sol) /\
            List.length (matrix r)
            = S (List.length (build_demanda (customers data)
                                (build_oferta (locations data)))) /\
            (solver_sound solver -> status r <> "Optimal"))).
Proof.
  intros Hcs Hls Hgt.
  destruct (request_totals _ _ Hcs Hls) as [Hdem Hcap].
  set (oferta := build_oferta (locations data)) in *.
  set (demanda := build_demanda (customers data) oferta).
  assert (Hfic : dict_get demanda fictitious
                 = Some (Zsum (map capacity (locations data))
                         - Zsum (map demand (customers data)))%Z).
  { unfold demanda, build_demanda. cbv zeta. rewrite Hdem, Hcap.
    apply dict_get_set_same. }
  split; [eexists; split; [exact Hfic|split; [reflexivity|lia]]|].
  intros costos Ht.
  destruct (solve_ok solver data costos Ht) as (modelo & Hm & Hok).
  fold oferta in Hm. fold demanda in Hm.
  assert (Hinf : forall val, ~ feasible val modelo).
  { intros val Hfeas.
    destruct (demand_constraint_holds _ _ _ _ Hm _ Hfeas fictitious _
                (dict_get_Some_In _ _ _ Hfic)) as (s & Hs & Heq & Hb).
    assert (Hpos : (0 <= s)%Q).
    { apply (lp_sum_nonneg _ _ _ Hs Hb). apply Forall_forall.
      intros v Hv. apply in_map_iff in Hv. destruct Hv as (a & <- & _).
      reflexivity. }
    rewrite Heq in Hpos. change 0%Q with (inject_Z 0) in Hpos.
    rewrite <- Zle_Qle in Hpos. lia. }
  exists modelo. split; [exact Hm|]. split; [exact Hinf|].
  intros sol Hsol. destruct (Hok sol Hsol) as [r Hr]. exists r.
  destruct (solve_inv _ _ _ Hr)
    as (costos' & modelo' & sol' & Ht' & Hm' & Hsol' & Hst & Hmat & _).
  fold oferta in Hm', Hmat. fold demanda in Hm', Hmat.
  rewrite Ht in Ht'. inversion Ht'; subst costos'.
  rewrite Hm in Hm'. inversion Hm'; subst modelo'.
  rewrite Hsol in Hsol'. inversion Hsol'; subst sol'.
  split; [exact Hr|]. split; [exact Hst|]. split.
  - rewrite Hmat. unfold dict_keys. rewrite length_app, !length_map.
    simpl. lia.
  - intros Hsound Hopt. rewrite Hst in Hopt. apply LpStatus_Optimal in Hopt.
    exact (Hinf _ (Hsound _ _ Hsol Hopt)).
Qed.

(** C2 (amended).  In every response the matrix has one row per entry of the
    demand vector followed by the capacity row; when no location is named
    ["CLIENTE"] the rows' clients are the demand vector's keys and then
    ["CAPACIDAD"]; for pairwise distinct customer identifiers, none of them
    the fictitious client's, these are the customers in request order, the
    fictitious client, and ["CAPACIDAD"]. *)
Theorem matrix_rows (solver : Solver) data r :
  solve_transportation solver data = inr r ->
  List.length (matrix r)
  = S (List.length (build_demanda (customers data)
                 (build_oferta (locations data)))) /\
  (~ In "CLIENTE" (map location (locations data)) ->
   map (fun row => dict_get row "CLIENTE") (matrix r)
   = (map (fun k => Some (VStr k))
        (dict_keys (build_demanda (customers data)
                      (build_oferta (locations data))))
      ++ [Some (VStr "CAPACIDAD")])%list /\
   (NoDup (map client (customers data)) ->
    ~ In fictitious (map client (customers data)) ->
    map (fun row => dict_get row "CLIENTE") (matrix r)
    = (map (fun c => Some (VStr (client c))) (customers data)
       ++ [Some (VStr fictitious); Some (VStr "CAPACIDAD")])%list)).
Proof.
  intros Hr.
  destruct (solve_inv _ _ _ Hr) as (costos & modelo & sol & _ & _ & _ & _ & Hm & _).
  split.
  - rewrite Hm. unfold dict_keys. rewrite length_app, !length_map.
    simpl. lia.
  - intros Hcl.
    assert (Hkeys : ~ In "CLIENTE" (dict_keys (build_oferta (locations data))))
      by now rewrite build_oferta_keys, key_order_In.
    assert (Hgen :
      map (fun row => dict_get row "CLIENTE") (matrix r)
      = (map (fun k => Some (VStr k))
           (dict_keys (build_demanda (customers data)
                         (build_oferta (locations data))))
         ++ [Some (VStr "CAPACIDAD")])%list).
    { rewrite Hm, map_app, map_map. cbn [map].
      rewrite (capacity_row_client _ _ Hkeys). f_equal.
      apply map_ext. intros k. now apply client_row_client. }
    split; [exact Hgen|].
    intros Hnd Hfic. rewrite Hgen, (demanda_keys_fresh _ _ Hfic).
    rewrite (key_order_NoDup_id _ Hnd), map_app, map_map, <- app_assoc.
    reflexivity.
Qed.

(** C3 (failing input).  A customer named like the fictitious client pays 5
    at Cleveland and the location adds 1: the builder stores 6 in that
    customer's cell and then overwrites it, so the matrix it returns holds 0
    there, whatever the object inherits. *)
Theorem namesake_cost_is_not_base_plus_shipping :
  In namesake [namesake] /\ In depot [depot] /\
  exists cm,
    transform_data_to_cost_matrix [namesake] [depot] = inr cm /\
    getattr namesake (location depot) = inr (VNum (PFloat 5)) /\
    cost_at cm (location depot) (client namesake) = Some 0%Q /\
    ~ (0 == 5 + shippingCost depot)%Q.
Proof.
  split; [now left|]. split; [now left|].
  eexists. split; [reflexivity|]. split; [reflexivity|].
  split; [reflexivity|]. intros H. discriminate H.
Qed.

(** C4 (amended).  The allocation of a response whose status is Optimal is
    the point the solver reported, neither checked nor rounded.  The matrix
    is the clients' rows followed by the capacity row; for every entry of
    the demand vector, in order, the row holds under each location (other
    than one named ["DEMANDA"]) the value the solver gave the pair's
    variable, 0 when it gave none, and under ["DEMANDA"] the sum of those
    values.  When no location is named ["DEMANDA"] and the solver's point
    satisfies the constraints and bounds of the model: every location's
    column sums to at most its capacity, and every row's quantities and
    ["DEMANDA"] total equal the demand vector's entry; for pairwise distinct
    identifiers, none the fictitious client's, the rows before the
    fictitious client's are the customers' in request order, each summing to
    that customer's demand, and every location of the request ships at most
    its capacity. *)
Theorem optimal_allocation (solver : Solver) data r :
  solve_transportation solver data = inr r ->
  status r = "Optimal" ->
  exists costos modelo sol rows,
    transform_data_to_cost_matrix (customers data) (locations data)
    = inr costos /\
    build_model costos (build_oferta (locations data))
      (build_demanda (customers data) (build_oferta (locations data)))
    = inr modelo /\
    solver modelo = inr sol /\
    status_code sol = LpStatusOptimal /\
    matrix r
    = (rows ++ [capacity_row (build_oferta (locations data))
                  (build_demanda (customers data)
                     (build_oferta (locations data)))])%list /\
    Forall2 (fun row cd =>
               (forall almacen,
                  In almacen (dict_keys (build_oferta (locations data))) ->
                  almacen <> "DEMANDA" ->
                  (cell_Q row almacen
                   == Qor0 (varValue sol (variables almacen (fst cd))))%Q) /\
               (cell_Q row "DEMANDA"
                == Qsum (map (fun almacen =>
                                Qor0 (varValue sol
                                        (variables almacen (fst cd))))
                           (dict_keys (build_oferta (locations data)))))%Q)
      rows (build_demanda (customers data) (build_oferta (locations data))) /\
    (~ In "DEMANDA" (map location (locations data)) ->
     feasible (varValue sol) modelo ->
     (forall almacen cap,
        In (almacen, cap) (build_oferta (locations data)) ->
        (Qsum (map (fun row => cell_Q row almacen) rows) <= inject_Z cap)%Q) /\
     Forall2 (fun row cd =>
                (Qsum (map (cell_Q row)
                         (dict_keys (build_oferta (locations data))))
                 == inject_Z (snd cd))%Q /\
                (cell_Q row "DEMANDA" == inject_Z (snd cd))%Q)
       rows (build_demanda (customers data) (build_oferta (locations data))) /\
     (NoDup (map client (customers data)) ->
      ~ In fictitious (map client (customers data)) ->
      NoDup (map location (locations data)) ->
      (exists real_rows fictitious_row,
         rows = (real_rows ++ [fictitious_row])%list /\
         Forall2 (fun row c =>
                    (Qsum (map (cell_Q row) (map location (locations data)))
                     == inject_Z (demand c))%Q /\
                    (cell_Q row "DEMANDA" == inject_Z (demand c))%Q)
           real_rows (customers data)) /\
      (forall l, In l (locations data) ->
         (Qsum (map (fun row => cell_Q row (location l)) rows)
          <= inject_Z (capacity l))%Q))).
Proof.
  intros Hr Hopt.
  destruct (solve_inv _ _ _ Hr)
    as (costos & modelo & sol & Ht & Hmod & Hsol & Hst & Hm & _).
  rewrite Hst in Hopt. apply LpStatus_Optimal in Hopt.
  set (oferta := build_oferta (locations data)) in *.
  set (demanda := build_demanda (customers data) oferta) in *.
  exists costos, modelo, sol,
    (map (client_row (varValue sol) oferta) (dict_keys demanda)).
  split; [exact Ht|]. split; [exact Hmod|]. split; [exact Hsol|].
  split; [exact Hopt|]. split; [exact Hm|]. split.
  { unfold dict_keys at 1. apply Forall2_map_fst. intros [c d] _. cbn [fst].
    split.
    - intros almacen Ha Hne. now apply client_row_cell.
    - rewrite row_total, map_map. reflexivity. }
  intros Hdem Hfeas.
  assert (Hkd : ~ In "DEMANDA" (dict_keys oferta)).
  { unfold oferta. now rewrite build_oferta_keys, key_order_In. }
  pose proof (feasible_columns _ _ _ _ Hmod _ Hfeas Hkd) as Hcol.
  pose proof (feasible_rows _ _ _ _ Hmod _ Hfeas Hkd) as Hrow.
  split; [exact Hcol|]. split; [exact Hrow|].
  intros Hcs Hfic Hls. split.
  - unfold demanda, build_demanda in Hrow |- *. cbv zeta in Hrow |- *.
    rewrite dict_set_fresh in Hrow |- *
      by now rewrite customer_demands_keys, key_order_In.
    rewrite (customer_demands_NoDup _ Hcs) in Hrow |- *.
    unfold dict_keys in Hrow |- *. rewrite map_app, map_app in Hrow |- *.
    cbn [map] in Hrow |- *.
    apply Forall2_app_inv_r in Hrow.
    destruct Hrow as (l1 & l2 & Hreal & Hlast & Heq).
    inversion Hlast as [|y ? l2' ? _ Hnil]; subst.
    inversion Hnil; subst.
    apply app_inj_tail in Heq as [Heq _].
    eexists. eexists. split; [reflexivity|].
    rewrite <- Heq in Hreal. clear - Hreal Hls.
    assert (Hk : map fst oferta = map location (locations data)).
    { unfold oferta. rewrite (build_oferta_NoDup _ Hls), map_map.
      reflexivity. }
    rewrite Hk in Hreal.
    remember (map (client_row (varValue sol) oferta)
                (map fst (map (fun c => (client c, demand c)) (customers data))))
      as rows eqn:Erows. clear Erows.
    revert rows Hreal. induction (customers data) as [|c cs IH];
      intros rows Hreal; inversion Hreal; subst; constructor; auto.
  - intros l Hl. apply Hcol. unfold oferta.
    rewrite (build_oferta_NoDup _ Hls).
    apply (in_map (fun l => (location l, capacity l))). exact Hl.
Qed.


(** C6 (amended).  In every response the last row's ["DEMANDA"] field is
    the label ["<total capacity> / <total of the demand vector>"], the
    demand vector including the fictitious client's entry; when no customer
    is named like the fictitious client both numbers are the total
    capacity. *)
Theorem summary_row_label (solver : Solver) data r :
  solve_transportation solver data = inr r ->
  exists rows summary,
    matrix r = (rows ++ [summary])%list /\
    dict_get summary "DEMANDA"
    = Some (VStr (str_int (Zsum (dict_values (build_oferta (locations data))))
                  ++ " / "
                  ++ str_int (Zsum (dict_values
                                      (build_demanda (customers data)
                                         (build_oferta (locations data))))))) /\
    (~ In fictitious (map client (customers data)) ->
     dict_get summary "DEMANDA"
     = Some (VStr (str_int (Zsum (dict_values (build_oferta (locations data))))
                   ++ " / "
                   ++ str_int (Zsum (dict_values
                                       (build_oferta (locations data))))))).
Proof.
  intros Hr.
  destruct (solve_inv _ _ _ Hr) as (costos & modelo & sol & _ & _ & _ & _ & Hm & _).
  eexists. eexists. split; [exact Hm|]. split.
  - apply capacity_row_label.
  - intros Hfic. rewrite capacity_row_label.
    now rewrite (balanced_totals_of_fresh _ _ Hfic).
Qed.

(** C7 (amended).  In a request where every declared location is either one
    of the five cost fields or a name under which the customers have no
    attribute at all: as soon as some declared location is not a cost field
    (and there is a customer), the builder raises Python's [AttributeError]
    for such a location.  When every declared location is one of the five
    cost fields the builder returns a matrix. *)
Theorem cost_matrix_construction customers locations :
  ((forall c l, In c customers -> In l locations ->
      In (location l) cost_fields \/
      getattr c (location l)
      = inl (AttributeError "Customer" (location l))) ->
   (exists c l, In c customers /\ In l locations /\
                ~ In (location l) cost_fields) ->
   exists l,
     In l locations /\ ~ In (location l) cost_fields /\
     transform_data_to_cost_matrix customers locations
     = inl (AttributeError "Customer" (location l))) /\
  ((forall l, In l locations -> In (location l) cost_fields) ->
   exists cm, transform_data_to_cost_matrix customers locations = inr cm).
Proof.
  split.
  - intros Hall (c' & l & Hc' & Hl & Hout).
    destruct customers as [|c customers]; [contradiction|].
    assert (Hc : In c (c :: customers)) by now left.
    destruct (transform_raises c customers locations)
      as (e & loc & Hloc & Hadj & Hrun).
    + exists (location l). split; [now apply in_map|].
      unfold adjusted_cost, bind.
      destruct (Hall c l Hc Hl) as [Hin| ->]; [contradiction|reflexivity].
    + apply in_map_iff in Hloc. destruct Hloc as (l0 & <- & Hl0).
      exists l0. split; [assumption|].
      unfold adjusted_cost, bind in Hadj.
      destruct (Hall c l0 Hc Hl0) as [Hin|Herr].
      * exfalso. destruct (getattr_cost_field c _ Hin) as [q Hq].
        rewrite Hq in Hadj.
        destruct (shipping_cost_present locations (location l0)) as [s Hs];
          [now apply in_map|].
        unfold getitem in Hadj. rewrite Hs in Hadj. discriminate.
      * split.
        -- intros Hin. destruct (getattr_cost_field c _ Hin) as [q Hq].
           rewrite Hq in Herr. discriminate.
        -- rewrite Herr in Hadj. inversion Hadj; subst. exact Hrun.
  - intros Hall. apply transform_ok. intros c loc Hc Hloc.
    apply in_map_iff in Hloc. destruct Hloc as (l & <- & Hl).
    destruct (getattr_cost_field c _ (Hall l Hl)) as [q Hq].
    destruct (shipping_cost_present locations (location l)) as [s Hs];
      [now apply in_map|].
    unfold adjusted_cost, bind, getitem. rewrite Hq, Hs. simpl. eauto.
Qed.

(** C8 (failing input).  One location holding 100 and one customer named
    like the fictitious client asking for 10: the balancing assignment
    replaces the customer's entry, the demand vector is that one entry with
    90 and totals 90, while the supply vector totals 100. *)
Theorem namesake_unbalances_totals :
  build_demanda [namesake] (build_oferta [depot]) = [("Cliente fic.", 90%Z)] /\
  Zsum (dict_values (build_demanda [namesake] (build_oferta [depot]))) = 90%Z /\
  Zsum (dict_values (build_oferta [depot])) = 100%Z.
Proof. repeat split; reflexivity. Qed.

(** C9.  Two requests with the same customers, whose locations agree in
    name, capacity and shipping cost, get the same answer from the endpoint
    (response or error), whatever their [validCombinations] and their
    locations' [generalCost] are. *)
Theorem unused_inputs_do_not_matter (solver : Solver) d1 d2 :
  customers d1 = customers d2 ->
  Forall2 same_but_generalCost (locations d1) (locations d2) ->
  solve_transportation solver d1 = solve_transportation solver d2.
Proof.
  intros Hc Hl.
  assert (Hship : map (fun loc => (location loc, shippingCost loc)) (locations d1)
                  = map (fun loc => (location loc, shippingCost loc)) (locations d2)).
  { apply (Forall2_map_eq same_but_generalCost); [|assumption].
    intros x y (-> & _ & ->). reflexivity. }
  assert (Hrow : map (fun loc => (location loc, @nil (string * Q))) (locations d1)
                 = map (fun loc => (location loc, [])) (locations d2)).
  { apply (Forall2_map_eq same_but_generalCost); [|assumption].
    intros x y (-> & _ & _). reflexivity. }
  assert (Hcap : map (fun loc => (location loc, capacity loc)) (locations d1)
                 = map (fun loc => (location loc, capacity loc)) (locations d2)).
  { apply (Forall2_map_eq same_but_generalCost); [|assumption].
    intros x y (-> & -> & _). reflexivity. }
  unfold solve_transportation, solve_body, transform_data_to_cost_matrix,
    build_oferta.
  now rewrite Hc, Hship, Hrow, Hcap.
Qed.


(* ================================================================== *)
(** ** Further properties of the builder and the endpoint *)






Lemma add_key_idem ks k : add_key (add_key ks k) k = add_key ks k.
Proof.
  unfold add_key. destruct (mem k ks) eqn:E; [now rewrite E|].
  assert (H : mem k (ks ++ [k]) = true).
  { apply mem_In. apply in_or_app. right. now left. }
  now rewrite H.
Qed.

Lemma setitem2_row_keys m loc k v m' :
  setitem2 m loc k v = inr m' ->
  forall loc', row_keys m' loc' =
    if String.eqb loc' loc
    then option_map (fun ks => add_key ks k) (row_keys m loc')
    else row_keys m loc'.
Proof.
  unfold setitem2, getitem, bind.
  destruct (dict_get m loc) as [row|] eqn:Hrow; [|discriminate].
  intros H. inversion H; subst m'; clear H. intros loc'.
  unfold row_keys. rewrite dict_get_set.
  destruct (String.eqb loc' loc) eqn:E; [|reflexivity].
  apply String.eqb_eq in E. subst loc'. rewrite Hrow. simpl.
  now rewrite dict_keys_set.
Qed.

(** A loop that stores one value under the key [k] in the rows of [ks]. *)
Lemma column_loop_row_keys (f : string -> result Q) k ks m m' :
  for_each ks (fun loc cost_matrix =>
    v <- f loc ;; setitem2 cost_matrix loc k v) m = inr m' ->
  forall loc, row_keys m' loc =
    if mem loc ks
    then option_map (fun r => add_key r k) (row_keys m loc)
    else row_keys m loc.
Proof.
  revert m. induction ks as [|l ks IH]; intros m; cbn [for_each].
  - intros H. inversion H. reflexivity.
  - unfold bind at 1 2. destruct (f l) as [e|v]; [discriminate|].
    destruct (setitem2 m l k v) as [e|m1] eqn:Hset; [discriminate|].
    intros H loc. rewrite (IH _ H), (setitem2_row_keys _ _ _ _ _ Hset), mem_cons.
    destruct (String.eqb loc l); simpl; [|reflexivity].
    destruct (mem loc ks); [|reflexivity].
    destruct (row_keys m loc); simpl; [|reflexivity].
    now rewrite add_key_idem.
Qed.

Lemma column_loop_all_rows (f : string -> result Q) k m m' :
  for_each (dict_keys m) (fun loc cost_matrix =>
    v <- f loc ;; setitem2 cost_matrix loc k v) m = inr m' ->
  forall loc, row_keys m' loc
              = option_map (fun r => add_key r k) (row_keys m loc).
Proof.
  intros H loc. rewrite (column_loop_row_keys _ _ _ _ _ H).
  destruct (mem loc (dict_keys m)) eqn:E; [reflexivity|].
  apply mem_not_In in E. apply dict_get_None in E.
  unfold row_keys. now rewrite E.
Qed.

Lemma customers_loop_row_keys (sc : dict Q) cs m m' :
  for_each cs (fun customer cost_matrix =>
    for_each (dict_keys cost_matrix) (fun loc cost_matrix =>
      v <- adjusted_cost sc customer loc ;;
      setitem2 cost_matrix loc (client customer) v) cost_matrix) m = inr m' ->
  forall loc, row_keys m' loc
              = option_map (fold_left add_key (map client cs)) (row_keys m loc).
Proof.
  revert m. induction cs as [|c cs IH]; intros m; cbn [for_each].
  - intros H. inversion H. intros loc. now destruct (row_keys m' loc).
  - unfold bind at 1.
    match goal with
    | |- match ?run with _ => _ end = _ -> _ => destruct run as [e|m1] eqn:Hc
    end; [discriminate|].
    intros H loc. rewrite (IH _ H).
    rewrite (column_loop_all_rows
               (fun loc => adjusted_cost sc c loc) (client c) m m1 Hc).
    now destruct (row_keys m loc).
Qed.

Lemma initial_rows (locations : list Location) loc :
  row_keys (dict_of (map (fun l => (location l, [])) locations)) loc
  = if mem loc (map location locations) then Some [] else None.
Proof.
  unfold row_keys.
  destruct (dict_get _ loc) as [row|] eqn:Hrow.
  - assert (Hin : In loc (map location locations)).
    { assert (H : In loc (dict_keys (dict_of (map (fun l : Location =>
                     (location l, @nil (string * Q))) locations))))
        by (apply dict_get_In; eauto).
      rewrite dict_keys_of, map_map, key_order_In in H. exact H. }
    rewrite (proj2 (mem_In _ _) Hin).
    assert (H : Forall (fun kv : string * dict Q => snd kv = [])
                  (dict_of (map (fun l => (location l, [])) locations))).
    { unfold dict_of.
      replace (map (fun l => (location l, [])) locations)
        with (map (fun k => (k, @nil (string * Q))) (map location locations))
        by (now rewrite map_map).
      apply dict_fold_const. constructor. }
    destruct (dict_get_Forall _ _ _ _ H Hrow) as [k' Hk']. simpl in Hk'.
    now subst row.
  - apply dict_get_None in Hrow.
    rewrite dict_keys_of, map_map, key_order_In in Hrow.
    change (~ In loc (map location locations)) in Hrow.
    now rewrite (proj2 (mem_not_In _ _) Hrow).
Qed.

Lemma transform_row_keys customers locations cm :
  transform_data_to_cost_matrix customers locations = inr cm ->
  forall loc, row_keys cm loc =
    if mem loc (map location locations)
    then Some (add_key (key_order (map client customers)) fictitious)
    else None.
Proof.
  unfold transform_data_to_cost_matrix. cbv zeta. unfold bind at 1.
  set (m0 := dict_of (map (fun loc => (location loc, [])) locations)).
  match goal with
  | |- match ?run with _ => _ end = _ -> _ => destruct run as [e|m1] eqn:Hm1
  end; [discriminate|].
  intros Hfic loc.
  rewrite (column_loop_all_rows (fun _ => ok 0%Q) fictitious m1 cm Hfic loc).
  rewrite (customers_loop_row_keys _ _ _ _ Hm1).
  unfold m0. rewrite initial_rows.
  now destruct (mem loc (map location locations)).
Qed.

(** X2.  The matrix the builder returns is rectangular: its rows are the
    supply vector's keys (the distinct location names in order of first
    occurrence), and every row has exactly the demand vector's keys, in
    the demand vector's order (the distinct customer names in order of
    first occurrence, the fictitious client's name included). *)
Theorem cost_matrix_is_rectangular customers locations cm :
  transform_data_to_cost_matrix customers locations = inr cm ->
  dict_keys cm = dict_keys (build_oferta locations) /\
  NoDup (dict_keys cm) /\
  Forall (fun entry =>
            dict_keys (snd entry)
            = dict_keys (build_demanda customers (build_oferta locations)))
    cm.
Proof.
  intros Ht. destruct (transform_inv _ _ _ Ht) as (Hk & _ & _).
  assert (Hnd : NoDup (dict_keys cm)) by (rewrite Hk; apply key_order_NoDup).
  split; [now rewrite Hk, build_oferta_keys|]. split; [exact Hnd|].
  apply Forall_forall. intros [loc row] Hin. cbn [snd].
  pose proof (dict_get_NoDup _ _ _ Hnd Hin) as Hget.
  pose proof (transform_row_keys _ _ _ Ht loc) as Hrow.
  unfold row_keys in Hrow. rewrite Hget in Hrow.
  destruct (mem loc (map location locations)); [|discriminate].
  simpl in Hrow. inversion Hrow as [Hkeys].
  unfold build_demanda. cbv zeta.
  now rewrite dict_keys_set, customer_demands_keys.
Qed.

Lemma dict_get_fold_last {V} (items : list (string * V)) (d : dict V) k :
  dict_get (fold_left (fun d kv => dict_set d (fst kv) (snd kv)) items d) k
  = match last_value k items with
    | Some v => Some v
    | None => dict_get d k
    end.
Proof.
  revert d. induction items as [|[k' v] items IH]; intros d; simpl; [reflexivity|].
  rewrite IH. destruct (last_value k items); [reflexivity|].
  rewrite dict_get_set, (String.eqb_sym k k').
  now destruct (String.eqb k' k).
Qed.

Lemma dict_get_of_last {V} (items : list (string * V)) k :
  dict_get (dict_of items) k = last_value k items.
Proof.
  unfold dict_of. rewrite dict_get_fold_last.
  now destruct (last_value k items).
Qed.

Lemma last_value_customers {V} (f : Customer -> V) k cs :
  last_value k (map (fun c => (client c, f c)) cs)
  = option_map f (last_customer k cs).
Proof.
  induction cs as [|c cs IH]; simpl; [reflexivity|].
  rewrite IH. destruct (last_customer k cs); simpl; [reflexivity|].
  now destruct (String.eqb (client c) k).
Qed.

Lemma last_value_locations {V} (f : Location -> V) k ls :
  last_value k (map (fun l => (location l, f l)) ls)
  = option_map f (last_location k ls).
Proof.
  induction ls as [|l ls IH]; simpl; [reflexivity|].
  rewrite IH. destruct (last_location k ls); simpl; [reflexivity|].
  now destruct (String.eqb (location l) k).
Qed.

Lemma last_customer_Some k cs c :
  last_customer k cs = Some c -> In c cs /\ client c = k.
Proof.
  induction cs as [|c' cs IH]; simpl; [discriminate|].
  destruct (last_customer k cs) as [c''|].
  - intros H. inversion H; subst. destruct (IH eq_refl). auto.
  - destruct (String.eqb (client c') k) eqn:E; [|discriminate].
    intros H. inversion H; subst. apply String.eqb_eq in E. auto.
Qed.

Lemma last_location_Some k ls l :
  last_location k ls = Some l -> In l ls /\ location l = k.
Proof.
  induction ls as [|l' ls IH]; simpl; [discriminate|].
  destruct (last_location k ls) as [l''|].
  - intros H. inversion H; subst. destruct (IH eq_refl). auto.
  - destruct (String.eqb (location l') k) eqn:E; [|discriminate].
    intros H. inversion H; subst. apply String.eqb_eq in E. auto.
Qed.

(** X3.  Among customers that share a name and among locations that share
    a name the last one of the request counts: for a name [k] other than the
    fictitious client's whose last customer is [c], and a location name
    [loc] whose last location is [l], the matrix returned by the builder
    holds [c]'s attribute named [loc] plus [l]'s shipping cost in the cell
    [loc], [k]; the supply vector holds [l]'s capacity under [loc] and the
    demand vector [c]'s demand under [k]. *)
Theorem last_duplicate_wins customers locations cm k loc c l :
  transform_data_to_cost_matrix customers locations = inr cm ->
  last_customer k customers = Some c ->
  last_location loc locations = Some l ->
  k <> fictitious ->
  (exists base,
     getattr c loc = inr (VNum base) /\
     cost_at cm loc k = Some (num_Q base + shippingCost l)%Q) /\
  dict_get (build_oferta locations) loc = Some (capacity l) /\
  dict_get (build_demanda customers (build_oferta locations)) k
  = Some (demand c).
Proof.
  intros Ht Hc Hl Hk.
  destruct (last_customer_Some _ _ _ Hc) as [Hcin Hck].
  destruct (last_location_Some _ _ _ Hl) as [Hlin Hlk].
  assert (Hloc : In loc (map location locations))
    by (rewrite <- Hlk; now apply in_map).
  destruct (transform_inv _ _ _ Ht) as (_ & Hall & Hcost).
  split; [|split].
  - rewrite Hcost, (proj2 (mem_In _ _) Hloc), Hc.
    destruct (String.eqb k fictitious) eqn:E;
      [apply String.eqb_eq in E; contradiction|].
    destruct (Hall c loc Hcin Hloc) as [v Hv]. rewrite Hv. simpl.
    unfold adjusted_cost, bind, getitem, shipping_costs_of in Hv.
    rewrite dict_get_of_last, last_value_locations, Hl in Hv. simpl in Hv.
    destruct (getattr c loc) as [e|[| |base|]]; try discriminate.
    exists base. split; [reflexivity|]. simpl in Hv. now inversion Hv.
  - unfold build_oferta.
    now rewrite dict_get_of_last, last_value_locations, Hl.
  - unfold build_demanda. cbv zeta.
    rewrite dict_get_set_other by (intros E; now apply Hk).
    unfold customer_demands.
    now rewrite dict_get_of_last, last_value_customers, Hc.
Qed.

Lemma client_row_fold_keys (val : LpVariable -> option Q) cliente ks
  (row : dict PyVal) total row' total' :
  fold_left (fun '(row, total) almacen =>
               let value := val (variables almacen cliente) in
               let cell := value_or_zero value in
               (dict_set row almacen (VNum cell), num_add total cell))
    ks (row, total) = (row', total') ->
  dict_keys row' = fold_left add_key ks (dict_keys row).
Proof.
  revert row total. induction ks as [|l ks IH]; intros row total; simpl.
  - intros H. now inversion H.
  - intros H. apply IH in H. now rewrite H, dict_keys_set.
Qed.

Lemma capacity_row_fold_keys (oferta : dict Z) (row : dict PyVal) total
  row' total' :
  fold_left (fun '(capacity_row, total_capacity) ao =>
               (dict_set capacity_row (fst ao) (VNum (PInt (snd ao))),
                (total_capacity + snd ao)%Z))
    oferta (row, total) = (row', total') ->
  dict_keys row' = fold_left add_key (dict_keys oferta) (dict_keys row) /\
  forall k, dict_get row' k =
    match last_value k oferta with
    | Some cap => Some (VNum (PInt cap))
    | None => dict_get row k
    end.
Proof.
  revert row total. induction oferta as [|[a cap] oferta IH];
    intros row total; simpl.
  - intros H. inversion H. auto.
  - intros H. apply IH in H. destruct H as [Hk Hget]. split.
    + now rewrite Hk, dict_keys_set.
    + intros k. rewrite Hget. destruct (last_value k oferta); [reflexivity|].
      rewrite dict_get_set, (String.eqb_sym k a).
      now destruct (String.eqb a k).
Qed.

Lemma last_value_NoDup {V} (d : dict V) k :
  NoDup (dict_keys d) -> last_value k d = dict_get d k.
Proof.
  induction d as [|[k' v] d IH]; simpl; intros Hnd; [reflexivity|].
  inversion Hnd as [|? ? Hnotin Hnd']; subst.
  rewrite (IH Hnd'). destruct (String.eqb k' k) eqn:E; [|now destruct (dict_get d k)].
  apply String.eqb_eq in E. subst k'.
  apply dict_get_None in Hnotin. now rewrite Hnotin.
Qed.

Lemma build_oferta_NoDup_keys locations :
  NoDup (dict_keys (build_oferta locations)).
Proof. rewrite build_oferta_keys. apply key_order_NoDup. Qed.

Lemma table_columns ks :
  NoDup ks -> ~ In "CLIENTE" ks -> ~ In "DEMANDA" ks ->
  add_key (fold_left add_key ks ["CLIENTE"]) "DEMANDA"
  = ("CLIENTE" :: ks ++ ["DEMANDA"])%list.
Proof.
  intros Hnd Hc Hd.
  rewrite fold_add_key_app by (simpl; constructor; assumption).
  unfold add_key.
  assert (H : mem "DEMANDA" (["CLIENTE"] ++ ks) = false).
  { apply mem_not_In. simpl. intros [E|E]; [discriminate|contradiction]. }
  rewrite H. reflexivity.
Qed.

(** X4.  When no location is named ["CLIENTE"] or ["DEMANDA"], every row of
    the response matrix, the capacity row included, has the same columns in
    the same order: ["CLIENTE"], the distinct location names in order of
    first occurrence, ["DEMANDA"]. *)
Theorem response_is_a_table (solver : Solver) data r :
  solve_transportation solver data = inr r ->
  ~ In "CLIENTE" (map location (locations data)) ->
  ~ In "DEMANDA" (map location (locations data)) ->
  Forall (fun row =>
            dict_keys row
            = ("CLIENTE" :: key_order (map location (locations data))
               ++ ["DEMANDA"])%list)
    (matrix r).
Proof.
  intros Hr Hc Hd.
  destruct (solve_inv _ _ _ Hr) as (costos & modelo & sol & _ & _ & _ & _ & Hm & _).
  rewrite Hm. rewrite <- build_oferta_keys.
  assert (Hnd : NoDup (dict_keys (build_oferta (locations data))))
    by apply build_oferta_NoDup_keys.
  assert (Hc' : ~ In "CLIENTE" (dict_keys (build_oferta (locations data))))
    by now rewrite build_oferta_keys, key_order_In.
  assert (Hd' : ~ In "DEMANDA" (dict_keys (build_oferta (locations data))))
    by now rewrite build_oferta_keys, key_order_In.
  apply Forall_app. split.
  - apply Forall_forall. intros row Hin. apply in_map_iff in Hin.
    destruct Hin as (cliente & <- & _). unfold client_row.
    match goal with
    | |- context [fold_left ?f ?l ?a] =>
        destruct (fold_left f l a) as [row total] eqn:Hfold
    end.
    apply client_row_fold_keys in Hfold.
    rewrite dict_keys_set, Hfold. now apply table_columns.
  - constructor; [|constructor]. unfold capacity_row.
    match goal with
    | |- context [fold_left ?f ?l ?a] =>
        destruct (fold_left f l a) as [row total] eqn:Hfold
    end.
    apply capacity_row_fold_keys in Hfold. destruct Hfold as [Hk _].
    rewrite dict_keys_set, Hk. now apply table_columns.
Qed.

(** X5.  The last row of the response holds, under each key of the supply
    vector other than ["DEMANDA"], that location's capacity as an integer
    (for a name that several locations share, the last one's). *)
Theorem capacity_row_cells (solver : Solver) data r almacen l :
  solve_transportation solver data = inr r ->
  last_location almacen (locations data) = Some l ->
  almacen <> "DEMANDA" ->
  dict_get (last (matrix r) []) almacen = Some (VNum (PInt (capacity l))).
Proof.
  intros Hr Hl Hne.
  destruct (solve_inv _ _ _ Hr) as (costos & modelo & sol & _ & _ & _ & _ & Hm & _).
  rewrite Hm, last_last. unfold capacity_row.
  match goal with
  | |- context [fold_left ?f ?l ?a] =>
      destruct (fold_left f l a) as [row total] eqn:Hfold
  end.
  apply capacity_row_fold_keys in Hfold. destruct Hfold as [_ Hget].
  rewrite dict_get_set_other by (intros E; now apply Hne).
  rewrite Hget, (last_value_NoDup _ _ (build_oferta_NoDup_keys _)).
  unfold build_oferta. now rewrite dict_get_of_last, last_value_locations, Hl.
Qed.

(** X6.  Whatever the solver reports, the rows of the response before the
    last are the clients' rows, one per key of the demand vector and in its
    order.  In a client's row the cell of a location (other than one named
    ["DEMANDA"]) is the integer 0 when the solver gave the pair's variable
    no value or the value 0, and the value as a float otherwise; the
    ["DEMANDA"] cell is a number equal to the sum of the values the solver
    gave the row's variables, which is the sum of the row's location cells
    when no location is named ["DEMANDA"]. *)
Theorem client_rows_add_up (solver : Solver) data r :
  solve_transportation solver data = inr r ->
  exists costos modelo sol,
    transform_data_to_cost_matrix (customers data) (locations data)
    = inr costos /\
    build_model costos (build_oferta (locations data))
      (build_demanda (customers data) (build_oferta (locations data)))
    = inr modelo /\
    solver modelo = inr sol /\
    Forall2 (fun row cliente =>
               (forall almacen,
                  In almacen (dict_keys (build_oferta (locations data))) ->
                  almacen <> "DEMANDA" ->
                  match varValue sol (variables almacen cliente) with
                  | None => dict_get row almacen = Some (VNum (PInt 0))
                  | Some q =>
                      ((q == 0)%Q ->
                       dict_get row almacen = Some (VNum (PInt 0))) /\
                      (~ (q == 0)%Q ->
                       dict_get row almacen = Some (VNum (PFloat q)))
                  end) /\
               exists total,
                 dict_get row "DEMANDA" = Some (VNum total) /\
                 (num_Q total
                  == Qsum (map (fun almacen =>
                                  Qor0 (varValue sol
                                          (variables almacen cliente)))
                             (dict_keys (build_oferta (locations data)))))%Q /\
                 (~ In "DEMANDA" (map location (locations data)) ->
                  (num_Q total
                   == Qsum (map (cell_Q row)
                              (dict_keys (build_oferta (locations data)))))%Q))
      (removelast (matrix r))
      (dict_keys (build_demanda (customers data)
                    (build_oferta (locations data)))).
Proof.
  intros Hr.
  destruct (solve_inv _ _ _ Hr)
    as (costos & modelo & sol & Ht & Hmod & Hsol & _ & Hm & _).
  exists costos, modelo, sol.
  split; [exact Ht|]. split; [exact Hmod|]. split; [exact Hsol|].
  rewrite Hm, removelast_last.
  set (oferta := build_oferta (locations data)).
  generalize (dict_keys (build_demanda (customers data) oferta)).
  intros clientes. induction clientes as [|cliente clientes IH];
    cbn [map]; constructor; [|exact IH].
  split.
  - intros almacen Ha Hne.
    rewrite (client_row_cell_value _ _ _ _ Ha Hne). unfold value_or_zero.
    destruct (varValue sol (variables almacen cliente)) as [q|];
      [|reflexivity].
    destruct (Qeq_bool q 0) eqn:E; split; intros Hq; try reflexivity.
    + apply Qeq_bool_iff in E. contradiction.
    + apply Qeq_bool_iff in Hq. congruence.
  - destruct (client_row_total (varValue sol) oferta cliente)
      as (total & Hget & Htot).
    exists total. split; [exact Hget|]. split; [exact Htot|].
    intros Hd.
    assert (Hd' : ~ In "DEMANDA" (dict_keys oferta)).
    { unfold oferta. now rewrite build_oferta_keys, key_order_In. }
    rewrite Htot, row_sum by assumption. now rewrite map_map.
Qed.

Lemma single_column_row (row : dict Q) k v :
  dict_keys row = [k] -> dict_get row k = Some v -> row = [(k, v)].
Proof.
  destruct row as [|[k' v'] [|? ?]]; simpl; try discriminate.
  intros H. inversion H; subst. rewrite String.eqb_refl.
  intros E. now inversion E.
Qed.

(** X7.  Without customers the builder returns a matrix whatever the
    locations are called (no attribute is ever looked up): one row per
    distinct location name, holding only the fictitious client at cost 0;
    the demand vector is the fictitious client alone, with the whole supply
    as its demand. *)
Theorem no_customers locations :
  exists cm,
    transform_data_to_cost_matrix [] locations = inr cm /\
    dict_keys cm = key_order (map location locations) /\
    Forall (fun entry => snd entry = [(fictitious, 0%Q)]) cm /\
    build_demanda [] (build_oferta locations)
    = [(fictitious, Zsum (dict_values (build_oferta locations)))].
Proof.
  destruct (transform_ok [] locations) as [cm Ht]; [intros c loc []|].
  exists cm. split; [exact Ht|].
  destruct (transform_inv _ _ _ Ht) as (Hk & _ & Hcost).
  assert (Hnd : NoDup (dict_keys cm)) by (rewrite Hk; apply key_order_NoDup).
  split; [exact Hk|]. split.
  - apply Forall_forall. intros [loc row] Hin. cbn [snd].
    pose proof (dict_get_NoDup _ _ _ Hnd Hin) as Hget.
    assert (Hloc : In loc (map location locations)).
    { rewrite <- key_order_In, <- Hk. eapply In_dict_keys; eauto. }
    apply single_column_row.
    + pose proof (transform_row_keys _ _ _ Ht loc) as Hrow.
      unfold row_keys in Hrow.
      rewrite Hget, (proj2 (mem_In _ _) Hloc) in Hrow.
      simpl in Hrow. now inversion Hrow.
    + specialize (Hcost loc fictitious). unfold cost_at in Hcost.
      rewrite Hget in Hcost. rewrite Hcost.
      rewrite (proj2 (mem_In _ _) Hloc). unfold fictitious.
      now rewrite String.eqb_refl.
  - unfold build_demanda, customer_demands, dict_of. simpl.
    unfold Zsum at 2. simpl. now rewrite Z.sub_0_r.
Qed.

(** X8.  Without locations the builder returns the empty matrix for any
    customers, and every response is made of rows without quantities: each
    client's row holds the client and the integer total 0, the last row
    reads ["0 / <total of the demand vector>"], and there is no total cost
    ([None]): the objective has no term. *)
Theorem no_locations (solver : Solver) data r :
  locations data = [] ->
  solve_transportation solver data = inr r ->
  transform_data_to_cost_matrix (customers data) [] = inr [] /\
  matrix r
  = (map (fun cliente =>
            [("CLIENTE", VStr cliente); ("DEMANDA", VNum (PInt 0))])
       (dict_keys (build_demanda (customers data) []))
     ++ [[("CLIENTE", VStr "CAPACIDAD");
          ("DEMANDA",
           VStr ("0 / " ++ str_int (Zsum (dict_values
                                           (build_demanda (customers data)
                                              [])))))]])%list /\
  total_cost r = None.
Proof.
  intros Hl Hr.
  destruct (solve_inv _ _ _ Hr)
    as (costos & modelo & sol & Ht & Hmod & _ & _ & Hm & Htc).
  rewrite Hl in Ht, Hmod, Hm. change (build_oferta []) with (@nil (string * Z)) in *.
  split; [|split].
  - destruct (transform_inv _ _ _ Ht) as (Hk & _).
    destruct costos; [exact Ht|discriminate Hk].
  - rewrite Hm. reflexivity.
  - destruct (build_model_inv _ _ _ _ Hmod) as [Hobj _].
    rewrite Htc, Hobj. reflexivity.
Qed.





Lemma build_demanda_NoDup_keys customers oferta :
  NoDup (dict_keys (build_demanda customers oferta)).
Proof.
  unfold build_demanda. cbv zeta. rewrite dict_keys_set, customer_demands_keys.
  apply add_key_NoDup, key_order_NoDup.
Qed.


(** X12.  Whenever the builder returns a matrix for customers and
    locations with pairwise distinct identifiers, the cell of every customer
    not named like the fictitious client holds, for every location, the
    value of the customer's attribute named after the location plus the
    location's [shippingCost], and the fictitious client's cell is 0 for
    every location. *)
Theorem cost_matrix_cells customers locations cm :
  transform_data_to_cost_matrix customers locations = inr cm ->
  NoDup (map client customers) ->
  NoDup (map location locations) ->
  (forall c l, In c customers -> In l locations -> client c <> fictitious ->
     exists base,
       getattr c (location l) = inr (VNum base) /\
       cost_at cm (location l) (client c)
       = Some (num_Q base + shippingCost l)%Q) /\
  (forall l, In l locations -> cost_at cm (location l) fictitious = Some 0%Q).
Proof.
  intros Ht Hcs Hls. destruct (transform_inv _ _ _ Ht) as (_ & Hall & Hcost).
  split.
  - intros c l Hc Hl Hne.
    assert (Hloc : In (location l) (map location locations)) by now apply in_map.
    rewrite Hcost. rewrite (proj2 (mem_In _ _) Hloc).
    destruct (String.eqb (client c) fictitious) eqn:E;
      [apply String.eqb_eq in E; contradiction|].
    rewrite (last_customer_NoDup _ _ Hcs Hc).
    destruct (Hall c (location l) Hc Hloc) as [v Hv]. rewrite Hv. simpl.
    unfold adjusted_cost, bind, getitem in Hv.
    rewrite (shipping_cost_NoDup _ _ Hls Hl) in Hv.
    destruct (getattr c (location l)) as [e|[| |base|]]; try discriminate.
    exists base. split; [reflexivity|]. simpl in Hv. now inversion Hv.
  - intros l Hl.
    assert (Hloc : In (location l) (map location locations)) by now apply in_map.
    rewrite Hcost. rewrite (proj2 (mem_In _ _) Hloc).
    unfold fictitious. now rewrite String.eqb_refl.
Qed.

(** X13.  After the balancing assignment the demand vector totals what the
    supply vector totals when no customer is named like the fictitious
    client; when one is, the total falls short of the supply vector's by the
    demand the last customer of that name submitted. *)
Theorem balanced_totals customers locations :
  (~ In fictitious (map client customers) ->
   Zsum (dict_values (build_demanda customers (build_oferta locations)))
   = Zsum (dict_values (build_oferta locations))) /\
  (forall c, last_customer fictitious customers = Some c ->
     Zsum (dict_values (build_demanda customers (build_oferta locations)))
     = (Zsum (dict_values (build_oferta locations)) - demand c)%Z).
Proof.
  split.
  - intros Hfresh. rewrite demanda_total.
    destruct (dict_get (customer_demands customers) fictitious) as [d|] eqn:Hd;
      [|lia].
    exfalso. apply Hfresh.
    assert (Hin : In fictitious (dict_keys (customer_demands customers)))
      by (apply dict_get_In; eauto).
    now rewrite customer_demands_keys, key_order_In in Hin.
  - intros c Hc. rewrite demanda_total. unfold customer_demands.
    now rewrite dict_get_of_last, last_value_customers, Hc.
Qed.

(* ================================================================== *)
(** ** When the model has a feasible point *)

Lemma values_of_keys (d : dict Z) :
  NoDup (dict_keys d) ->
  map (fun k => Zor0 (dict_get d k)) (dict_keys d) = dict_values d.
Proof.
  induction d as [|[k v] d IH]; simpl; intros Hnd; [reflexivity|].
  inversion Hnd as [|? ? Hnotin Hnd']; subst.
  rewrite String.eqb_refl. simpl. f_equal.
  rewrite <- (IH Hnd'). apply map_ext_in. intros k' Hk'.
  destruct (String.eqb k k') eqn:E; [|reflexivity].
  apply String.eqb_eq in E. subst. contradiction.
Qed.

Lemma Qsum_inject_Z l : (Qsum (map inject_Z l) == inject_Z (Zsum l))%Q.
Proof.
  induction l as [|x l IH]; simpl; [reflexivity|].
  now rewrite Zsum_cons, inject_Z_plus, IH.
Qed.

Lemma Qsum_scale {A} (a b : Q) (f : A -> Q) l :
  (Qsum (map (fun x => a * f x * b) l) == a * Qsum (map f l) * b)%Q.
Proof. induction l as [|x l IH]; simpl; [ring|]. rewrite IH. ring. Qed.

Lemma lp_sum_all (val : LpVariable -> option Q) (q : LpVariable -> Q) vars :
  (forall v, val v = Some (q v)) ->
  lp_sum val vars = Some (Qsum (map q vars)).
Proof.
  intros H. induction vars as [|v vars IH]; simpl; [reflexivity|].
  now rewrite H, IH.
Qed.

Lemma dict_set_values_Forall (P : Z -> Prop) (d : dict Z) k v :
  Forall P (dict_values d) -> P v -> Forall P (dict_values (dict_set d k v)).
Proof.
  induction d as [|[k' v'] d IH]; simpl; intros Hd Hv.
  - now repeat constructor.
  - inversion Hd; subst.
    destruct (String.eqb k' k); simpl; constructor; auto.
Qed.

Lemma dict_fold_values_Forall (P : Z -> Prop) (items : list (string * Z))
  (d : dict Z) :
  Forall P (dict_values d) -> Forall P (map snd items) ->
  Forall P (dict_values
              (fold_left (fun d kv => dict_set d (fst kv) (snd kv)) items d)).
Proof.
  revert d. induction items as [|[k v] items IH]; intros d Hd Hi; simpl;
    [assumption|].
  inversion Hi; subst. apply IH; [|assumption].
  now apply dict_set_values_Forall.
Qed.

Lemma dict_of_values_Forall (P : Z -> Prop) (items : list (string * Z)) :
  Forall P (map snd items) -> Forall P (dict_values (dict_of items)).
Proof. intros H. apply dict_fold_values_Forall; [constructor|assumption]. Qed.

Lemma Zsum_nonneg l : Forall (fun z => (0 <= z)%Z) l -> (0 <= Zsum l)%Z.
Proof.
  induction 1 as [|x l Hx _ IH]; [unfold Zsum; simpl; lia|].
  rewrite Zsum_cons. lia.
Qed.

Lemma Zsum_zero l x :
  Forall (fun z => (0 <= z)%Z) l -> (Zsum l <= 0)%Z -> In x l -> x = 0%Z.
Proof.
  induction 1 as [|y l Hy Hl IH]; [intros _ []|].
  rewrite Zsum_cons. intros Hs. pose proof (Zsum_nonneg _ Hl).
  intros [<-|Hin]; [lia|]. apply IH; [lia|assumption].
Qed.

Lemma Zor0_get_nonneg (d : dict Z) k :
  Forall (fun z => (0 <= z)%Z) (dict_values d) -> (0 <= Zor0 (dict_get d k))%Z.
Proof.
  intros H. destruct (dict_get d k) as [v|] eqn:E; simpl; [|lia].
  apply dict_get_Some_In in E. rewrite Forall_forall in H. apply H.
  change v with (snd (k, v)). now apply in_map.
Qed.

(** The three facts about shares the feasible point rests on. *)
Lemma share_le (cap t s : Q) :
  (0 <= cap)%Q -> (0 <= t)%Q -> (t <= s)%Q -> (cap * t / s <= cap)%Q.
Proof.
  intros Hc Ht Hts. destruct (Qeq_dec s 0) as [Hs|Hs].
  - rewrite Hs. unfold Qdiv. change (/ 0)%Q with 0%Q. rewrite Qmult_0_r.
    exact Hc.
  - assert (Hpos : (0 < s)%Q).
    { destruct (Qlt_le_dec 0 s) as [|Hle]; [assumption|].
      exfalso. apply Hs. lra. }
    apply Qle_shift_div_r; [assumption|]. nra.
Qed.

Lemma share_nonneg (a b s : Q) :
  (0 <= a)%Q -> (0 <= b)%Q -> (0 <= s)%Q -> (0 <= a * b / s)%Q.
Proof.
  intros Ha Hb Hs. unfold Qdiv. apply Qmult_le_0_compat.
  - now apply Qmult_le_0_compat.
  - now apply Qinv_le_0_compat.
Qed.

Lemma share_all (s d : Q) : ~ (s == 0)%Q -> (s * d / s == d)%Q.
Proof. intros Hs. field. exact Hs. Qed.

Section Proportional.
Variables (customers : list Customer) (locations : list Location).
Let oferta := build_oferta locations.
Let demanda := build_demanda customers oferta.
Hypothesis capacities : Forall (fun l => (0 <= capacity l)%Z) locations.
Hypothesis demands : Forall (fun c => (0 <= demand c)%Z) customers.
Hypothesis enough :
  (Zsum (dict_values (customer_demands customers))
   <= Zsum (dict_values oferta))%Z.

Lemma oferta_nonneg : Forall (fun z => (0 <= z)%Z) (dict_values oferta).
Proof.
  apply dict_of_values_Forall. rewrite map_map. cbn [snd].
  now apply Forall_map.
Qed.

Lemma customer_demands_nonneg :
  Forall (fun z => (0 <= z)%Z) (dict_values (customer_demands customers)).
Proof.
  apply dict_of_values_Forall. rewrite map_map. cbn [snd].
  now apply Forall_map.
Qed.

Lemma demanda_nonneg : Forall (fun z => (0 <= z)%Z) (dict_values demanda).
Proof.
  apply dict_set_values_Forall; [apply customer_demands_nonneg|].
  fold oferta. lia.
Qed.

Lemma demanda_at_most_oferta :
  (Zsum (dict_values demanda) <= Zsum (dict_values oferta))%Z.
Proof.
  unfold demanda. rewrite demanda_total.
  pose proof (Zor0_get_nonneg (customer_demands customers) fictitious
                customer_demands_nonneg) as H.
  unfold Zor0 in H.
  destruct (dict_get (customer_demands customers) fictitious); lia.
Qed.

Lemma proportional_supply almacen cap :
  In (almacen, cap) oferta ->
  (Qsum (map (fun v => Qor0 (proportional_point oferta demanda v))
           (map (variables almacen) (dict_keys demanda)))
   <= inject_Z cap)%Q.
Proof.
  intros Hin.
  assert (Hget : dict_get oferta almacen = Some cap)
    by (apply dict_get_NoDup; [apply build_oferta_NoDup_keys|assumption]).
  rewrite map_map. unfold proportional_point. cbn [Qor0 var_almacen var_cliente variables].
  rewrite Hget. cbn [Zor0]. unfold Qdiv.
  rewrite (Qsum_scale (inject_Z cap) (/ inject_Z (Zsum (dict_values oferta)))
             (fun c => inject_Z (Zor0 (dict_get demanda c)))).
  rewrite <- (map_map (fun c => Zor0 (dict_get demanda c)) inject_Z).
  rewrite values_of_keys by apply build_demanda_NoDup_keys.
  rewrite Qsum_inject_Z.
  apply share_le.
  - change 0%Q with (inject_Z 0). rewrite <- Zle_Qle.
    pose proof oferta_nonneg as H. rewrite Forall_forall in H. apply H.
    change cap with (snd (almacen, cap)). now apply in_map.
  - change 0%Q with (inject_Z 0). rewrite <- Zle_Qle.
    apply Zsum_nonneg, demanda_nonneg.
  - rewrite <- Zle_Qle. apply demanda_at_most_oferta.
Qed.

Lemma proportional_demand cliente d :
  In (cliente, d) demanda ->
  (Qsum (map (fun v => Qor0 (proportional_point oferta demanda v))
           (map (fun almacen => variables almacen cliente) (dict_keys oferta)))
   == inject_Z d)%Q.
Proof.
  intros Hin.
  assert (Hget : dict_get demanda cliente = Some d)
    by (apply dict_get_NoDup; [apply build_demanda_NoDup_keys|assumption]).
  rewrite map_map. unfold proportional_point. cbn [Qor0 var_almacen var_cliente variables].
  rewrite Hget. cbn [Zor0]. unfold Qdiv.
  rewrite (Qsum_map_ext _
             (fun a => 1 * inject_Z (Zor0 (dict_get oferta a))
                       * (inject_Z d * / inject_Z (Zsum (dict_values oferta))))%Q)
    by (intros; ring).
  rewrite (Qsum_scale 1 (inject_Z d * / inject_Z (Zsum (dict_values oferta)))
             (fun a => inject_Z (Zor0 (dict_get oferta a)))).
  rewrite <- (map_map (fun a => Zor0 (dict_get oferta a)) inject_Z).
  rewrite values_of_keys by apply build_oferta_NoDup_keys.
  rewrite Qsum_inject_Z.
  destruct (Z.eq_dec (Zsum (dict_values oferta)) 0) as [Hs|Hs].
  - assert (Hd : d = 0%Z).
    { apply (Zsum_zero (dict_values demanda)).
      - apply demanda_nonneg.
      - pose proof demanda_at_most_oferta. lia.
      - change d with (snd (cliente, d)). now apply in_map. }
    rewrite Hs, Hd. reflexivity.
  - transitivity (inject_Z (Zsum (dict_values oferta)) * inject_Z d
                  / inject_Z (Zsum (dict_values oferta)))%Q;
      [unfold Qdiv; ring|].
    apply share_all. change 0%Q with (inject_Z 0). rewrite inject_Z_injective.
    exact Hs.
Qed.

Lemma proportional_bounds v :
  lowBound v = 0%Q -> within_bounds (proportional_point oferta demanda) v.
Proof.
  intros Hl. eexists. split; [reflexivity|]. rewrite Hl.
  apply share_nonneg; change 0%Q with (inject_Z 0); rewrite <- Zle_Qle.
  - apply Zor0_get_nonneg, oferta_nonneg.
  - apply Zor0_get_nonneg, demanda_nonneg.
  - apply Zsum_nonneg, oferta_nonneg.
Qed.

Lemma proportional_feasible costos modelo :
  build_model costos oferta demanda = inr modelo ->
  feasible (proportional_point oferta demanda) modelo.
Proof.
  intros Hm. destruct (build_model_inv _ _ _ _ Hm) as [_ Hcons].
  unfold feasible. rewrite Hcons. apply Forall_app. split.
  - apply Forall_forall. intros c Hc. apply in_map_iff in Hc.
    destruct Hc as ([a cap] & <- & Hin). cbn [fst snd]. split.
    + unfold constraint_holds. cbn [con_vars con_sense con_rhs].
      rewrite (lp_sum_all _ (fun v => Qor0 (proportional_point oferta demanda v)))
        by reflexivity.
      now apply proportional_supply.
    + cbn [con_vars]. apply Forall_forall. intros v Hv.
      apply in_map_iff in Hv. destruct Hv as (c & <- & _).
      now apply proportional_bounds.
  - apply Forall_forall. intros c Hc. apply in_map_iff in Hc.
    destruct Hc as ([cl d] & <- & Hin). cbn [fst snd]. split.
    + unfold constraint_holds. cbn [con_vars con_sense con_rhs].
      rewrite (lp_sum_all _ (fun v => Qor0 (proportional_point oferta demanda v)))
        by reflexivity.
      now apply proportional_demand.
    + cbn [con_vars]. apply Forall_forall. intros v Hv.
      apply in_map_iff in Hv. destruct Hv as (a & <- & _).
      now apply proportional_bounds.
Qed.
End Proportional.

(** X11.  For non-negative capacities and demands, the model the endpoint
    builds has a feasible point exactly when the customers' demand vector
    totals no more than the supply vector: the fictitious client's demand
    then absorbs the surplus, and shipping from every location to every
    client the share capacity * demand / total capacity satisfies every
    constraint. *)
Theorem model_feasibility customers locations costos modelo :
  Forall (fun l => (0 <= capacity l)%Z) locations ->
  Forall (fun c => (0 <= demand c)%Z) customers ->
  build_model costos (build_oferta locations)
    (build_demanda customers (build_oferta locations)) = inr modelo ->
  ((exists val, feasible val modelo) <->
   (Zsum (dict_values (customer_demands customers))
    <= Zsum (dict_values (build_oferta locations)))%Z) /\
  ((Zsum (dict_values (customer_demands customers))
    <= Zsum (dict_values (build_oferta locations)))%Z ->
   feasible (proportional_point (build_oferta locations)
               (build_demanda customers (build_oferta locations))) modelo).
Proof.
  intros Hcap Hdem Hm.
  assert (Hfeas : (Zsum (dict_values (customer_demands customers))
                   <= Zsum (dict_values (build_oferta locations)))%Z ->
                  feasible (proportional_point (build_oferta locations)
                              (build_demanda customers (build_oferta locations)))
                    modelo).
  { intros Hle. exact (proportional_feasible _ _ Hcap Hdem Hle _ _ Hm). }
  split; [|exact Hfeas]. split.
  - intros [val Hval].
    destruct (Z_le_gt_dec (Zsum (dict_values (customer_demands customers)))
                (Zsum (dict_values (build_oferta locations)))) as [Hle|Hgt];
      [exact Hle|exfalso].
    assert (Hfic :
      dict_get (build_demanda customers (build_oferta locations)) fictitious
      = Some (Zsum (dict_values (build_oferta locations))
              - Zsum (dict_values (customer_demands customers)))%Z).
    { unfold build_demanda. cbv zeta. apply dict_get_set_same. }
    destruct (demand_constraint_holds _ _ _ _ Hm _ Hval fictitious _
                (dict_get_Some_In _ _ _ Hfic)) as (s & Hs & Heq & Hb).
    assert (Hpos : (0 <= s)%Q).
    { apply (lp_sum_nonneg _ _ _ Hs Hb). apply Forall_forall.
      intros v Hv. apply in_map_iff in Hv. destruct Hv as (a & <- & _).
      reflexivity. }
    rewrite Heq in Hpos. change 0%Q with (inject_Z 0) in Hpos.
    rewrite <- Zle_Qle in Hpos. lia.
  - intros Hle. eexists. exact (Hfeas Hle).
Qed.

(** The statement of [model_feasibility] at a sample request. *)
Lemma model_feasibility_sample :
  exists modelo,
    build_model
      [("Cleveland", [("Ana", 4); ("Bob", 6); ("Cliente fic.", 0)]);
       ("Harrisburg", [("Ana", 8); ("Bob", 5); ("Cliente fic.", 0)])]%Q
      (build_oferta (locations sample_request))
      (build_demanda (customers sample_request)
         (build_oferta (locations sample_request))) = inr modelo /\
    feasible (proportional_point (build_oferta (locations sample_request))
                (build_demanda (customers sample_request)
                   (build_oferta (locations sample_request)))) modelo.
Proof.
  destruct (build_model
      [("Cleveland", [("Ana", 4); ("Bob", 6); ("Cliente fic.", 0)]);
       ("Harrisburg", [("Ana", 8); ("Bob", 5); ("Cliente fic.", 0)])]%Q
      (build_oferta (locations sample_request))
      (build_demanda (customers sample_request)
         (build_oferta (locations sample_request)))) as [e|modelo] eqn:Hm;
    [vm_compute in Hm; discriminate|].
  exists modelo. split; [reflexivity|].
  assert (Hc : Forall (fun l => (0 <= capacity l)%Z)
                 (locations sample_request))
    by (simpl; repeat constructor; discriminate).
  assert (Hd : Forall (fun c => (0 <= demand c)%Z) (customers sample_request))
    by (simpl; repeat constructor; discriminate).
  destruct (model_feasibility _ _ _ _ Hc Hd Hm) as [_ H].
  apply H. vm_compute. discriminate.
Defined.
End Program.

(* ================================================================== *)
(** ** The properties at sample requests *)

(** C1 (counterexample).  The customers ask for 120, the one location
    holds 50.  The endpoint returns a response, with the status the solver
    reported (here Infeasible) and a row per client; and with any solver the
    endpoint fails only if the solver itself raises. *)
Lemma excess_demand_gets_a_response :
  (Zsum (map demand (customers short_request))
   > Zsum (map capacity (locations short_request)))%Z /\
  (exists r,
     solve_transportation sample_base (candidate_solver sample_point)
       short_request = inr r /\
     status r = "Infeasible" /\
     map row_client (matrix r) = ["Ana"; "Bob"; "Cliente fic."; "CAPACIDAD"]) /\
  (forall (solver : Solver) err,
     solve_transportation sample_base solver short_request = inl err ->
     exists modelo, solver modelo = inl (detail err)).
Proof.
  split; [reflexivity|]. split.
  - eexists. split; [vm_compute; reflexivity|]. split; reflexivity.
  - intros solver err H.
    destruct (transform_data_to_cost_matrix sample_base
                (customers short_request) (locations short_request))
      as [e|costos] eqn:Ht; [vm_compute in Ht; discriminate|].
    destruct (solve_ok sample_base solver short_request costos Ht)
      as (modelo & Hm & Hok).
    exists modelo. destruct (solver modelo) as [e|sol] eqn:Hsol.
    + unfold solve_transportation, solve_body in H. cbv zeta in H.
      unfold bind in H. rewrite Ht, Hm, Hsol in H. now inversion H.
    + destruct (Hok sol eq_refl) as [r Hr]. rewrite Hr in H. discriminate.
Qed.

(** The statement of [excess_demand_is_solved] at a sample request. *)
Lemma excess_demand_is_solved_sample :
  (exists d,
     dict_get (build_demanda (customers short_request)
                 (build_oferta (locations short_request)))
       fictitious = Some d /\ d = (50 - 120)%Z /\ (d < 0)%Z) /\
  exists r,
    solve_transportation sample_base (candidate_solver sample_point)
      short_request = inr r /\
    status r = "Infeasible".
Proof.
  destruct (excess_demand_is_solved sample_base
              (candidate_solver sample_point) short_request)
    as (Hneg & Hrun).
  - simpl. repeat constructor; simpl; intuition discriminate.
  - simpl. repeat constructor; simpl; intuition discriminate.
  - vm_compute. reflexivity.
  - split; [exact Hneg|].
    destruct (transform_data_to_cost_matrix sample_base
                (customers short_request) (locations short_request))
      as [e|costos] eqn:Ht; [vm_compute in Ht; discriminate|].
    destruct (Hrun costos eq_refl) as (modelo & Hm & Hinf & Hsol).
    destruct (candidate_solver sample_point modelo) as [e|sol] eqn:Hs.
    + unfold candidate_solver in Hs.
      destruct (feasibleb sample_point modelo); discriminate.
    + destruct (Hsol sol eq_refl) as (r & Hr & Hst & _).
      exists r. split; [exact Hr|]. rewrite Hst.
      unfold candidate_solver in Hs.
      destruct (feasibleb sample_point modelo) eqn:Hf.
      * exfalso. exact (Hinf _ (feasibleb_sound _ _ Hf)).
      * inversion Hs. reflexivity.
Defined.

(** C2 (counterexample).  The sample has two customers; the response matrix
    has four rows, the third one for the fictitious client. *)
Lemma fictitious_client_has_a_row :
  exists r,
    solve_transportation sample_base (candidate_solver sample_point)
      sample_request = inr r /\
    List.length (customers sample_request) = 2%nat /\
    map row_client (matrix r) = ["Ana"; "Bob"; "Cliente fic."; "CAPACIDAD"].
Proof. eexists. split; [vm_compute; reflexivity|]. split; reflexivity. Qed.

(** The statement of [matrix_rows] at a sample request. *)
Lemma matrix_rows_sample :
  exists r,
    solve_transportation sample_base (candidate_solver sample_point)
      sample_request = inr r /\
    map (fun row => dict_get row "CLIENTE") (matrix r)
    = [Some (VStr "Ana"); Some (VStr "Bob"); Some (VStr "Cliente fic.");
       Some (VStr "CAPACIDAD")].
Proof.
  destruct (solve_transportation sample_base (candidate_solver sample_point)
              sample_request) as [e|r] eqn:Hr; [vm_compute in Hr; discriminate|].
  exists r. split; [reflexivity|].
  destruct (matrix_rows _ _ _ _ Hr) as (_ & H).
  destruct H as (_ & H).
  - simpl. intuition discriminate.
  - apply H.
    + simpl. repeat constructor; simpl; intuition discriminate.
    + simpl. unfold fictitious. intuition discriminate.
Defined.

(** C4 (counterexample).  One location holding 200000000 and one customer
    asking for 123456789: the point that serves the customer and leaves
    76543211 to the fictitious client satisfies the model.  With a solver
    that reports it with eight significant digits, the response has the
    status Optimal, the customer's row holds 123456790 and totals 123456790,
    and the location's column sums to 200000001. *)
Lemma optimal_status_with_inexact_values :
  exists r row rows,
    (exists costos modelo,
       transform_data_to_cost_matrix sample_base (customers large_request)
         (locations large_request) = inr costos /\
       build_model costos (build_oferta (locations large_request))
         (build_demanda (customers large_request)
            (build_oferta (locations large_request))) = inr modelo /\
       feasibleb (fun v => option_map inject_Z (large_point v)) modelo
       = true) /\
    solve_transportation sample_base (rounding_solver large_point)
      large_request = inr r /\
    status r = "Optimal" /\
    matrix r = row :: rows /\
    dict_get row "CLIENTE" = Some (VStr (client ana_large)) /\
    demand ana_large = 123456789%Z /\
    dict_get row "Cleveland" = Some (VNum (PFloat 123456790)) /\
    dict_get row "DEMANDA" = Some (VNum (PFloat 123456790)) /\
    capacity cleveland_large = 200000000%Z /\
    (Qsum (map (fun row => cell_Q row "Cleveland") (removelast (matrix r)))
     == 200000001)%Q.
Proof.
  eexists. eexists. eexists.
  split; [eexists; eexists; repeat split; vm_compute; reflexivity|].
  split; [vm_compute; reflexivity|].
  repeat split; reflexivity.
Qed.

(** The statement of [optimal_allocation] at a sample request. *)
Lemma optimal_allocation_sample :
  exists r rows,
    solve_transportation sample_base (candidate_solver sample_point)
      sample_request = inr r /\
    status r = "Optimal" /\
    matrix r
    = (rows ++ [capacity_row (build_oferta (locations sample_request))
                  (build_demanda (customers sample_request)
                     (build_oferta (locations sample_request)))])%list /\
    (forall l, In l (locations sample_request) ->
       (Qsum (map (fun row => cell_Q row (location l)) rows)
        <= inject_Z (capacity l))%Q) /\
    exists real_rows fictitious_row,
      rows = (real_rows ++ [fictitious_row])%list /\
      Forall2 (fun row c =>
                 (Qsum (map (cell_Q row)
                          (map location (locations sample_request)))
                  == inject_Z (demand c))%Q /\
                 (cell_Q row "DEMANDA" == inject_Z (demand c))%Q)
        real_rows (customers sample_request).
Proof.
  destruct (solve_transportation sample_base (candidate_solver sample_point)
              sample_request) as [e|r] eqn:Hr; [vm_compute in Hr; discriminate|].
  assert (Hst : status r = "Optimal").
  { vm_compute in Hr. inversion Hr. reflexivity. }
  destruct (optimal_allocation _ _ _ _ Hr Hst)
    as (costos & modelo & sol & rows & _ & _ & Hsol & Hopt & Hm & _ & Hfeas).
  destruct Hfeas as (_ & _ & Huniq).
  - simpl. intuition discriminate.
  - exact (candidate_solver_sound sample_point _ _ Hsol Hopt).
  - destruct Huniq as (Hreal & Hcap).
    + simpl. repeat constructor; simpl; intuition discriminate.
    + simpl. unfold fictitious. intuition discriminate.
    + simpl. repeat constructor; simpl; intuition discriminate.
    + exists r, rows. split; [reflexivity|]. split; [exact Hst|].
      split; [exact Hm|]. split; [exact Hcap|exact Hreal].
Defined.



(** C6 (counterexample).  In the sample the customers ask for 120 in total
    and the locations hold 150; the capacity row's label reads
    ["150 / 150"]. *)
Lemma label_counts_fictitious_demand :
  exists r,
    solve_transportation sample_base (candidate_solver sample_point)
      sample_request = inr r /\
    dict_get (last (matrix r) []) "DEMANDA" = Some (VStr "150 / 150") /\
    Zsum (map demand (customers sample_request)) = 120%Z /\
    Zsum (map capacity (locations sample_request)) = 150%Z.
Proof.
  eexists. split; [vm_compute; reflexivity|]. repeat split; reflexivity.
Qed.

(** The statement of [summary_row_label] at a sample request. *)
Lemma summary_row_label_sample :
  exists r rows summary,
    solve_transportation sample_base (candidate_solver sample_point)
      sample_request = inr r /\
    matrix r = (rows ++ [summary])%list /\
    dict_get summary "DEMANDA" = Some (VStr "150 / 150").
Proof.
  destruct (solve_transportation sample_base (candidate_solver sample_point)
              sample_request) as [e|r] eqn:Hr; [vm_compute in Hr; discriminate|].
  destruct (summary_row_label _ _ _ _ Hr) as (rows & summary & Hm & Hlabel & _).
  exists r, rows, summary. split; [reflexivity|]. split; [exact Hm|].
  exact Hlabel.
Defined.

(** C7 (counterexample).  No customer has a cost for Boston.  The builder
    raises [AttributeError] for the attribute ["Boston"] of [Customer], and
    with any solver the endpoint reports that error under status 500. *)
Lemma missing_cost_raises_attribute_error :
  In boston (locations boston_request) /\
  ~ In (location boston) cost_fields /\
  transform_data_to_cost_matrix sample_base (customers boston_request)
    (locations boston_request) = inl (AttributeError "Customer" "Boston") /\
  (forall solver : Solver,
     solve_transportation sample_base solver boston_request
     = inl {| status_code_http := 500;
              detail := AttributeError "Customer" "Boston" |}).
Proof.
  split; [simpl; tauto|]. split; [simpl; intuition discriminate|].
  split; [reflexivity|]. intros solver. reflexivity.
Qed.

(** The statement of [cost_matrix_construction] at a sample request. *)
Lemma cost_matrix_construction_sample :
  (exists l,
     In l [cleveland; boston] /\ ~ In (location l) cost_fields /\
     transform_data_to_cost_matrix sample_base [ana; bob] [cleveland; boston]
     = inl (AttributeError "Customer" (location l))) /\
  (exists cm,
     transform_data_to_cost_matrix sample_base [ana; bob]
       [cleveland; harrisburg] = inr cm).
Proof.
  split.
  - apply (proj1 (cost_matrix_construction sample_base [ana; bob]
                    [cleveland; boston])).
    + intros c l _ [<-|[<-|[]]]; [left; simpl; tauto|right; reflexivity].
    + exists ana, boston. split; [simpl; tauto|]. split; [simpl; tauto|].
      simpl. intuition discriminate.
  - apply (proj2 (cost_matrix_construction sample_base [ana; bob]
                    [cleveland; harrisburg])).
    intros l [<-|[<-|[]]]; simpl; tauto.
Defined.

(** The statement of [unused_inputs_do_not_matter] at a sample request. *)
Lemma unused_inputs_do_not_matter_sample :
  solve_transportation sample_base (candidate_solver sample_point)
    sample_request
  = solve_transportation sample_base (candidate_solver sample_point)
      {| validCombinations :=
           [{| combination := "A-B"; description := "both";
               vc_capacity := 1; vc_cost := 2 |}];
         customers := [ana; bob];
         locations :=
           [{| location := "Cleveland"; capacity := 100; shippingCost := 0;
               generalCost := 1000 |};
            {| location := "Harrisburg"; capacity := 50; shippingCost := 0;
               generalCost := -3 |}] |}.
Proof.
  apply unused_inputs_do_not_matter.
  - reflexivity.
  - repeat constructor.
Defined.




(** The statement of [cost_matrix_is_rectangular] at a sample request. *)
Lemma cost_matrix_is_rectangular_sample :
  exists cm,
    transform_data_to_cost_matrix sample_base [ana; bob; ana]
      [harrisburg; cleveland; harrisburg] = inr cm /\
    dict_keys cm = ["Harrisburg"; "Cleveland"] /\
    Forall (fun entry => dict_keys (snd entry) = ["Ana"; "Bob"; "Cliente fic."])
      cm.
Proof.
  destruct (transform_data_to_cost_matrix sample_base [ana; bob; ana]
              [harrisburg; cleveland; harrisburg]) as [e|cm] eqn:Ht;
    [vm_compute in Ht; discriminate|].
  exists cm. split; [reflexivity|].
  destruct (cost_matrix_is_rectangular _ _ _ _ Ht) as (Hk & _ & Hrows).
  split; [exact Hk|exact Hrows].
Defined.

(** The statement of [last_duplicate_wins] at a sample request. *)
Lemma last_duplicate_wins_sample :
  exists cm,
    transform_data_to_cost_matrix sample_base [ana; bob; ana_revised]
      [cleveland; harrisburg; cleveland_revised] = inr cm /\
    cost_at cm "Cleveland" "Ana" = Some (7 + 2)%Q /\
    dict_get (build_oferta [cleveland; harrisburg; cleveland_revised])
      "Cleveland" = Some 60%Z /\
    dict_get (build_demanda [ana; bob; ana_revised]
                (build_oferta [cleveland; harrisburg; cleveland_revised]))
      "Ana" = Some 30%Z.
Proof.
  destruct (transform_data_to_cost_matrix sample_base [ana; bob; ana_revised]
              [cleveland; harrisburg; cleveland_revised]) as [e|cm] eqn:Ht;
    [vm_compute in Ht; discriminate|].
  exists cm. split; [reflexivity|].
  destruct (last_duplicate_wins _ _ _ _ "Ana" "Cleveland" ana_revised
              cleveland_revised Ht) as ((base & Hbase & Hcell) & Hcap & Hdem).
  - reflexivity.
  - reflexivity.
  - discriminate.
  - split; [|split; assumption].
    rewrite Hcell. vm_compute in Hbase. inversion Hbase. reflexivity.
Defined.

(** The statement of [response_is_a_table] at a sample request. *)
Lemma response_is_a_table_sample :
  exists r,
    solve_transportation sample_base (candidate_solver sample_point)
      sample_request = inr r /\
    Forall (fun row =>
              dict_keys row = ["CLIENTE"; "Cleveland"; "Harrisburg"; "DEMANDA"])
      (matrix r).
Proof.
  destruct (solve_transportation sample_base (candidate_solver sample_point)
              sample_request) as [e|r] eqn:Hr; [vm_compute in Hr; discriminate|].
  exists r. split; [reflexivity|].
  apply (response_is_a_table _ _ _ _ Hr); simpl; intuition discriminate.
Defined.

(** The statement of [capacity_row_cells] at a sample request. *)
Lemma capacity_row_cells_sample :
  exists r,
    solve_transportation sample_base (candidate_solver sample_point)
      sample_request = inr r /\
    dict_get (last (matrix r) []) "Harrisburg" = Some (VNum (PInt 50)).
Proof.
  destruct (solve_transportation sample_base (candidate_solver sample_point)
              sample_request) as [e|r] eqn:Hr; [vm_compute in Hr; discriminate|].
  exists r. split; [reflexivity|].
  apply (capacity_row_cells _ _ _ _ "Harrisburg" harrisburg Hr);
    [reflexivity|discriminate].
Defined.

(** The statement of [client_rows_add_up] at a sample request: Ana's row
    holds the float 80 under Cleveland, where the solver gave 80, and the
    integer 0 under Harrisburg, where it gave 0. *)
Lemma client_rows_add_up_sample :
  exists r,
    solve_transportation sample_base (candidate_solver sample_point)
      sample_request = inr r /\
    nth_error (matrix r) 0
    = Some [("CLIENTE", VStr "Ana"); ("Cleveland", VNum (PFloat 80));
            ("Harrisburg", VNum (PInt 0)); ("DEMANDA", VNum (PFloat 80))] /\
    Forall (fun row =>
              exists total,
                dict_get row "DEMANDA" = Some (VNum total) /\
                (num_Q total
                 == Qsum (map (cell_Q row) ["Cleveland"; "Harrisburg"]))%Q)
      (removelast (matrix r)).
Proof.
  destruct (solve_transportation sample_base (candidate_solver sample_point)
              sample_request) as [e|r] eqn:Hr; [vm_compute in Hr; discriminate|].
  exists r. split; [reflexivity|].
  split; [vm_compute in Hr; inversion Hr; reflexivity|].
  destruct (client_rows_add_up _ _ _ _ Hr)
    as (costos & modelo & sol & _ & _ & _ & Hrows).
  eapply Forall2_left; [|exact Hrows].
  intros row cliente [_ (total & Hget & _ & Hsum)].
  exists total. split; [exact Hget|].
  apply Hsum. simpl. intuition discriminate.
Defined.

(** The statement of [no_locations] at a sample request. *)
Lemma no_locations_sample :
  exists r,
    solve_transportation sample_base (silent_solver LpStatusInfeasible)
      locationless_request = inr r /\
    matrix r
    = [[("CLIENTE", VStr "Ana"); ("DEMANDA", VNum (PInt 0))];
       [("CLIENTE", VStr "Bob"); ("DEMANDA", VNum (PInt 0))];
       [("CLIENTE", VStr "Cliente fic."); ("DEMANDA", VNum (PInt 0))];
       [("CLIENTE", VStr "CAPACIDAD"); ("DEMANDA", VStr "0 / 0")]] /\
    total_cost r = None.
Proof.
  destruct (solve_transportation sample_base (silent_solver LpStatusInfeasible)
              locationless_request) as [e|r] eqn:Hr;
    [vm_compute in Hr; discriminate|].
  exists r. split; [reflexivity|].
  destruct (no_locations _ _ locationless_request _ eq_refl Hr)
    as (_ & Hm & Htc).
  split; [exact Hm|exact Htc].
Defined.


(** The statement of [cost_matrix_cells] at a sample request. *)
Lemma cost_matrix_cells_sample :
  (forall c l, In c [ana; bob] -> In l [cleveland; harrisburg] ->
     client c <> fictitious ->
     exists base,
       getattr sample_base c (location l) = inr (VNum base) /\
       cost_at [("Cleveland", [("Ana", 4); ("Bob", 6); ("Cliente fic.", 0)]);
                ("Harrisburg", [("Ana", 8); ("Bob", 5); ("Cliente fic.", 0)])]%Q
         (location l) (client c)
       = Some (num_Q base + shippingCost l)%Q) /\
  (forall l, In l [cleveland; harrisburg] ->
     cost_at [("Cleveland", [("Ana", 4); ("Bob", 6); ("Cliente fic.", 0)]);
              ("Harrisburg", [("Ana", 8); ("Bob", 5); ("Cliente fic.", 0)])]%Q
       (location l) fictitious = Some 0%Q).
Proof.
  apply (cost_matrix_cells sample_base [ana; bob] [cleveland; harrisburg]).
  - reflexivity.
  - simpl. repeat constructor; simpl; intuition discriminate.
  - simpl. repeat constructor; simpl; intuition discriminate.
Defined.


(** The statement of [balanced_totals] at two sample requests. *)
Lemma balanced_totals_sample :
  Zsum (dict_values (build_demanda [ana; bob]
                       (build_oferta [cleveland; harrisburg])))
  = Zsum (dict_values (build_oferta [cleveland; harrisburg])) /\
  Zsum (dict_values (build_demanda [ana; namesake]
                       (build_oferta [cleveland; harrisburg])))
  = (150 - 10)%Z.
Proof.
  destruct (balanced_totals [ana; namesake] [cleveland; harrisburg])
    as [_ Hshort].
  destruct (balanced_totals [ana; bob] [cleveland; harrisburg])
    as [Hbalanced _].
  split.
  - apply Hbalanced. simpl. unfold fictitious. intuition discriminate.
  - exact (Hshort namesake eq_refl).
Defined.
